(** * flask-filter: query parameters to peewee predicates and orderings

    A shallow embedding of [filters.py].  Python strings are [string]s whose
    characters stand for code points below 256; Python exceptions are the
    [Raise] outcome of [result]; the peewee query is a record holding its
    selected columns and the [where] / [order_by] calls made on it so far. *)

From Stdlib Require Import String Ascii List Bool Arith Lia.
Import ListNotations.
Local Open Scope string_scope.
Local Open Scope list_scope.

(** ** Python built-ins used by the module *)

Module Py.

(** Exceptions the module can raise: [raise Exception(msg)] in
    [get_field_py], and the [KeyError] of a failed dict subscript. *)
Inductive exn : Type :=
| Exception (msg : string)
| KeyError (k : string).

Inductive result (A : Type) : Type :=
| Ok (a : A)
| Raise (e : exn).
Arguments Ok {A} a.
Arguments Raise {A} e.

Definition bind {A B : Type} (r : result A) (k : A -> result B) : result B :=
  match r with
  | Ok a => k a
  | Raise e => Raise e
  end.

(** [x in xs] on a list of strings. *)
Definition contains (x : string) (xs : list string) : bool :=
  existsb (String.eqb x) xs.

(** [s.startswith(p)]. *)
Definition startswith (p s : string) : bool := String.prefix p s.

(** [s[1:]]. *)
Definition tail (s : string) : string :=
  match s with
  | EmptyString => EmptyString
  | String _ s' => s'
  end.

(** [s[:-1]]. *)
Fixpoint drop_last (s : string) : string :=
  match s with
  | EmptyString => EmptyString
  | String _ EmptyString => EmptyString
  | String c s' => String c (drop_last s')
  end.

(** [bool(s)]: a string is truthy when it is not empty. *)
Definition truthy (s : string) : bool :=
  match s with
  | EmptyString => false
  | String _ _ => true
  end.

(** [c.isspace()] for the code points below 256: tab to carriage return,
    the four separators 0x1c-0x1f, space, NEL and the no-break space. *)
Definition isspace (c : ascii) : bool :=
  let n := nat_of_ascii c in
  (((9 <=? n) && (n <=? 13)) || ((28 <=? n) && (n <=? 32))
   || (n =? 133) || (n =? 160))%nat.

Fixpoint lstrip (s : string) : string :=
  match s with
  | EmptyString => EmptyString
  | String c s' => if isspace c then lstrip s' else s
  end.

Fixpoint rstrip (s : string) : string :=
  match s with
  | EmptyString => EmptyString
  | String c s' =>
      match rstrip s' with
      | EmptyString => if isspace c then EmptyString else String c EmptyString
      | r => String c r
      end
  end.

(** [s.strip()]. *)
Definition strip (s : string) : string := rstrip (lstrip s).

(** [s.split(sep)] for a one-character separator: one more piece than
    there are separators, the empty string giving one empty piece. *)
Fixpoint split (sep : ascii) (s : string) : list string :=
  match s with
  | EmptyString => [EmptyString]
  | String c s' =>
      if Ascii.eqb c sep then EmptyString :: split sep s'
      else match split sep s' with
           | [] => [String c EmptyString]
           | piece :: pieces => String c piece :: pieces
           end
  end.

End Py.

Import Py.

Notation "x <- r ;; k" := (Py.bind r (fun x => k))
  (at level 61, r at next level, right associativity).

(** ** The peewee objects the filters touch *)

(** The peewee field classes that are keys of [DefaultFilter.FIELD_MAP]. *)
Inductive peewee_class : Type :=
| CharField
| IntegerField
| BooleanField
| DateTimeField.

Definition peewee_class_eqb (a b : peewee_class) : bool :=
  match a, b with
  | CharField, CharField
  | IntegerField, IntegerField
  | BooleanField, BooleanField
  | DateTimeField, DateTimeField => true
  | _, _ => false
  end.

(** A selected column: [name] is [field.name], [primary_key_name] is
    [field.model._meta.primary_key.name], and [instance_of] lists the mapped
    peewee classes the field object is an instance of (a subclass of
    [IntegerField] lists [IntegerField]; an unmapped type lists none).
    The columns modelled are fields of models that have a primary key; a
    model declared without one, on which reading that name fails, is
    outside this type. *)
Record Field : Type := mkField {
  name : string;
  primary_key_name : string;
  instance_of : list peewee_class
}.

Definition isinstance (field_py : Field) (cls : peewee_class) : bool :=
  existsb (peewee_class_eqb cls) (instance_of field_py).

(** [datetime.datetime], as far as [strptime] with the configured format
    fills it. *)
Record datetime : Type := mkDatetime {
  year : nat; month : nat; day : nat;
  hour : nat; minute : nat; second : nat
}.

(** [datetime.strptime(s, format)] belongs to the Python library, not to
    this repository: it is taken as a parameter, [None] standing for the
    [ValueError] it raises on a string that does not follow the format. *)
Class DatetimeLib : Type := {
  strptime : string -> string -> option datetime
}.

(** The values a coerced parameter can have. *)
Inductive pyvalue : Type :=
| VStr (s : string)
| VBool (b : bool)
| VDatetime (d : datetime).

(** The functions of the [operator] module that [DefaultFilter.MAP] names. *)
Inductive pyoperator : Type :=
| eq | ne | ge | le | gt | lt | mod_ | pow.

(** The expressions handed to [query.where]. *)
Inductive Expression : Type :=
| Compare (op : pyoperator) (field_py : Field) (v : pyvalue)
| IsNull (field_py : Field) (is_null : bool).

(** The nodes handed to [query.order_by]: a bare field (ascending), the
    result of [field.desc()], or Python's [None]. *)
Inductive SortKey : Type :=
| Asc (field_py : Field)
| Desc (field_py : Field)
| NoKey.

(** The query builder.  [where] and [order_by] return a query with the same
    selected columns; the calls are recorded in the order they are made. *)
Record Query : Type := mkQuery {
  selected_columns : list Field;
  where_calls : list Expression;
  order_by_calls : list SortKey
}.

Definition where_ (query : Query) (e : Expression) : Query :=
  {| selected_columns := selected_columns query;
     where_calls := where_calls query ++ [e];
     order_by_calls := order_by_calls query |}.

Definition order_by (query : Query) (k : SortKey) : Query :=
  {| selected_columns := selected_columns query;
     where_calls := where_calls query;
     order_by_calls := order_by_calls query ++ [k] |}.

(** Modelled from the spec: the effect of the queryable's add-a-sort-key
    operation, which belongs to peewee and is not part of this repository.
    Spec 4.4 and 6: the operation is cumulative, each call layers on top of
    the prior calls and so prepends in effect; the most recent call is the
    primary sort key. *)
Definition sort_precedence (query : Query) : list SortKey :=
  rev (order_by_calls query).

(** ** Field type adapters *)

Module FilterBaseField.

Definition parse_value {A : Type} (value : A) : A := value.

Definition is_support_operator (operator : string) : bool := true.

End FilterBaseField.

Module FilterCharField.

Definition parse_value (value : string) : pyvalue :=
  VStr (FilterBaseField.parse_value value).

Definition is_support_operator (operator : string) : bool :=
  FilterBaseField.is_support_operator operator.

End FilterCharField.

Module FilterBooleanField.

Definition parse_value (value : string) : pyvalue :=
  let ret := FilterBaseField.parse_value value in
  VBool (String.eqb ret "true").

Definition is_support_operator (operator : string) : bool :=
  negb (contains operator [">="; "<="; ">"; "<"; "LIKE"; "ILIKE"]).

End FilterBooleanField.

Module FilterIntegerField.

Definition parse_value (value : string) : pyvalue :=
  VStr (FilterBaseField.parse_value value).

Definition is_support_operator (operator : string) : bool :=
  negb (contains operator ["LIKE"; "ILIKE"]).

End FilterIntegerField.

Module FilterDateTimeField.

Definition FORMATS : list string := ["%Y-%m-%dT%H:%M:%S"].

Section WithDatetime.
Context `{DatetimeLib}.

(** The [for format in ...: try: return strptime(...) except
    ValueError: pass] loop, followed by [return ret]. *)
Fixpoint try_formats (ret : string) (formats : list string) : pyvalue :=
  match formats with
  | [] => VStr ret
  | format :: formats' =>
      match strptime ret format with
      | Some d => VDatetime d
      | None => try_formats ret formats'
      end
  end.

Definition parse_value (value : string) : pyvalue :=
  let ret := FilterBaseField.parse_value value in
  try_formats ret FORMATS.

End WithDatetime.

Definition is_support_operator (operator : string) : bool :=
  negb (contains operator ["LIKE"; "ILIKE"]).

End FilterDateTimeField.

Module FilterDefaultField.

Definition parse_value (value : string) : pyvalue :=
  VStr (FilterBaseField.parse_value value).

Definition is_support_operator (operator : string) : bool :=
  FilterBaseField.is_support_operator operator.

End FilterDefaultField.

(** An adapter object: its class and the peewee field it wraps. *)
Inductive filter_field_cls : Type :=
| CharAdapter
| IntegerAdapter
| BooleanAdapter
| DateTimeAdapter
| DefaultAdapter.

Record FilterField : Type := mkFilterField {
  cls : filter_field_cls;
  field_py : Field
}.

(** Method dispatch on the adapter's class. *)
Definition is_support_operator (filter_field : FilterField)
    (operator : string) : bool :=
  match cls filter_field with
  | CharAdapter => FilterCharField.is_support_operator operator
  | IntegerAdapter => FilterIntegerField.is_support_operator operator
  | BooleanAdapter => FilterBooleanField.is_support_operator operator
  | DateTimeAdapter => FilterDateTimeField.is_support_operator operator
  | DefaultAdapter => FilterDefaultField.is_support_operator operator
  end.

Definition parse_value `{DatetimeLib} (filter_field : FilterField)
    (value : string) : pyvalue :=
  match cls filter_field with
  | CharAdapter => FilterCharField.parse_value value
  | IntegerAdapter => FilterIntegerField.parse_value value
  | BooleanAdapter => FilterBooleanField.parse_value value
  | DateTimeAdapter => FilterDateTimeField.parse_value value
  | DefaultAdapter => FilterDefaultField.parse_value value
  end.

(** ** The filters *)

Module BaseFilter.

Definition get_valid_field_name_list (query : Query) : list string :=
  map name (selected_columns query).

Definition get_field_py (query : Query) (field_name : string)
    : result Field :=
  match find (fun field => String.eqb (name field) field_name)
             (selected_columns query) with
  | Some field => Ok field
  | None => Raise (Exception ("Field " ++ field_name ++ " not found"))
  end.

End BaseFilter.

Module OrderingFilter.
Import BaseFilter.

(** Falls off the end of the loop, returning [None], when no selected
    column is the primary key of its model. *)
Definition get_default_ordering_field (query : Query) : option Field :=
  find (fun field => String.eqb (primary_key_name field) (name field))
       (selected_columns query).

Definition term_valid (valid_field_name_list : list string)
    (ordering_param : string) : bool :=
  let ordering_param :=
    if startswith "-" ordering_param then Py.tail ordering_param
    else ordering_param in
  contains ordering_param valid_field_name_list.

Definition filter_valid_fields (query : Query)
    (ordering_param_list : list string) : list string :=
  let valid_field_name_list := get_valid_field_name_list query in
  List.filter (term_valid valid_field_name_list) ordering_param_list.

(** The value of [field_name_list] when the loop is reached, for a
    parameter that is not [None]. *)
Definition field_name_list (query : Query) (ordering_param : string)
    : list string :=
  if truthy ordering_param then
    let ordering_param_list := map strip (split "," ordering_param) in
    filter_valid_fields query ordering_param_list
  else [].

(** One turn of the loop body. *)
Definition order_by_field_name (query : Query) (field_name : string)
    : result Query :=
  ordering <-
    (if startswith "-" field_name then
       field <- get_field_py query (Py.tail field_name) ;; Ok (Desc field)
     else
       field <- get_field_py query field_name ;; Ok (Asc field)) ;;
  Ok (order_by query ordering).

Fixpoint for_each (query : Query) (field_names : list string)
    : result Query :=
  match field_names with
  | [] => Ok query
  | field_name :: rest =>
      query' <- order_by_field_name query field_name ;;
      for_each query' rest
  end.

Definition filter (query : Query) (ordering_param : option string)
    : result Query :=
  match ordering_param with
  | None =>
      Ok (order_by query
            match get_default_ordering_field query with
            | Some field => Asc field
            | None => NoKey
            end)
  | Some ordering_param =>
      let field_name_list := field_name_list query ordering_param in
      match field_name_list with
      | [] => Ok query
      | _ :: _ => for_each query (rev field_name_list)
      end
  end.

End OrderingFilter.

Module DefaultFilter.
Import BaseFilter.

(** The dict, in insertion order. *)
Definition MAP : list (string * pyoperator) :=
  [("==", eq); ("!=", ne); (">=", ge); ("<=", le);
   (">", gt); ("<", lt); ("LIKE", mod_); ("ILIKE", pow)].

Definition FIELD_MAP : list (peewee_class * filter_field_cls) :=
  [(CharField, CharAdapter); (IntegerField, IntegerAdapter);
   (BooleanField, BooleanAdapter); (DateTimeField, DateTimeAdapter)].

Definition SUPPORT_METHOD : list string := ["is_null"].

(** [self.MAP[operator]]. *)
Definition MAP_getitem (operator : string) : result pyoperator :=
  match find (fun entry => String.eqb (fst entry) operator) MAP with
  | Some entry => Ok (snd entry)
  | None => Raise (KeyError operator)
  end.

(** The two loops that append each key followed by a bar, then
    [operator_pattern[:-1]]. *)
Definition operator_pattern : string :=
  let add := fun (pattern key : string) => (pattern ++ key ++ "|")%string in
  let operator_pattern := fold_left add (map fst MAP) "" in
  let operator_pattern := fold_left add SUPPORT_METHOD operator_pattern in
  drop_last operator_pattern.

(** The backslash character. *)
Definition backslash : ascii := "092"%char.

(** The body of the group named operator in the pattern handed to
    [re.search]: the interpolated [operator_pattern] followed by a
    backslash and a closing parenthesis.  The pattern as a whole is the
    group named key holding [.*], an escaped opening parenthesis, and this
    group. *)
Definition operator_group : string :=
  (operator_pattern ++ String backslash ")")%string.

(** A regular-expression branch made of plain and backslash-escaped
    characters denotes the string of those characters. *)
Fixpoint literal (branch : string) : string :=
  match branch with
  | EmptyString => EmptyString
  | String c rest =>
      if Ascii.eqb c backslash then
        match rest with
        | String c' rest' => String c' (literal rest')
        | EmptyString => String c EmptyString
        end
      else String c (literal rest)
  end.

(** The branches of the group: [|] binds weakest, so the group body is cut
    at every [|] and each piece is one alternative. *)
Definition operator_alternatives : list string :=
  map literal (split "|" operator_group).

(** The group [(?P<operator>...)] at the head of [s]: the first branch, in
    written order, that [s] starts with. *)
Definition match_operator (s : string) : option string :=
  find (fun alternative => String.prefix alternative s)
       operator_alternatives.

Record groupdict : Type := mkGroupdict {
  key : string;
  operator : string
}.

(** The escaped opening parenthesis followed by the operator group, at
    the head of [s]. *)
Definition match_paren_operator (s : string) : option string :=
  match s with
  | String "(" rest => match_operator rest
  | _ => None
  end.

(** The whole pattern anchored at the head of [s].  The greedy [.*] takes
    as many characters other than the newline as it can and gives them
    back one at a time until the rest of the pattern matches. *)
Fixpoint match_at (s : string) : option groupdict :=
  let give_back :=
    match match_paren_operator s with
    | Some op => Some {| key := EmptyString; operator := op |}
    | None => None
    end in
  match s with
  | EmptyString => give_back
  | String c s' =>
      if Ascii.eqb c "010" then give_back
      else match match_at s' with
           | Some d => Some {| key := String c (key d);
                               operator := operator d |}
           | None => give_back
           end
  end.

(** [re.search]: the match at the leftmost position that has one. *)
Fixpoint search (s : string) : option groupdict :=
  match match_at s with
  | Some d => Some d
  | None =>
      match s with
      | EmptyString => None
      | String _ s' => search s'
      end
  end.

Definition split_operator (param_key : string) : option groupdict :=
  search param_key.

Definition get_filter_field (field_py : Field) : FilterField :=
  match find (fun entry => isinstance field_py (fst entry)) FIELD_MAP with
  | Some entry => mkFilterField (snd entry) field_py
  | None => mkFilterField DefaultAdapter field_py
  end.

Section WithDatetime.
Context `{DatetimeLib}.

(** The body of the loop over [query_params.items()]; [Ok query] with
    the query untouched is a [continue]. *)
Definition filter_param (query : Query) (param : string * string)
    : result Query :=
  let (param_key, value) := param in
  match split_operator param_key with
  | None => Ok query
  | Some operator_dict =>
      let field_name := key operator_dict in
      let operator := operator operator_dict in
      if negb (contains field_name (get_valid_field_name_list query))
      then Ok query
      else
        field_py0 <- get_field_py query field_name ;;
        let filter_field := get_filter_field field_py0 in
        if negb (is_support_operator filter_field operator)
        then Ok query
        else if contains operator SUPPORT_METHOD then
          Ok (where_ query
                (IsNull (field_py filter_field)
                        (String.eqb value "true")))
        else
          compare <- MAP_getitem operator ;;
          Ok (where_ query
                (Compare compare (field_py filter_field)
                         (parse_value filter_field value)))
  end.

(** [query_params] is the mapping's items in iteration order. *)
Fixpoint filter (query : Query) (query_params : list (string * string))
    : result Query :=
  match query_params with
  | [] => Ok query
  | param :: rest =>
      query' <- filter_param query param ;;
      filter query' rest
  end.

End WithDatetime.

End DefaultFilter.

(** ** Sample data for the examples *)

Module Sample.

Definition digit (c : ascii) : option nat :=
  let n := nat_of_ascii c in
  if ((48 <=? n) && (n <=? 57))%nat then Some (n - 48) else None.

Definition two_digits (a b : ascii) : option nat :=
  match digit a, digit b with
  | Some x, Some y => Some (10 * x + y)
  | _, _ => None
  end.

(** A sample [strptime] for the examples: under the configured format it
    reads the zero-padded form YYYY-MM-DDTHH:MM:SS and nothing else. *)
Definition iso_strptime (s format : string) : option datetime :=
  if negb (String.eqb format "%Y-%m-%dT%H:%M:%S") then None else
  match list_ascii_of_string s with
  | [y1; y2; y3; y4; d1; m1; m2; d2; a1; a2; t; h1; h2; c1; n1; n2; c2;
     s1; s2] =>
      match two_digits y1 y2, two_digits y3 y4, two_digits m1 m2,
            two_digits a1 a2, two_digits h1 h2, two_digits n1 n2,
            two_digits s1 s2 with
      | Some yh, Some yl, Some mo, Some da, Some ho, Some mi, Some se =>
          if (Ascii.eqb d1 "-" && Ascii.eqb d2 "-" && Ascii.eqb t "T"
              && Ascii.eqb c1 ":" && Ascii.eqb c2 ":"
              && (1 <=? mo) && (mo <=? 12) && (1 <=? da) && (da <=? 31)
              && (ho <=? 23) && (mi <=? 59) && (se <=? 59))%nat%bool
          then Some (mkDatetime (100 * yh + yl) mo da ho mi se)
          else None
      | _, _, _, _, _, _, _ => None
      end
  | _ => None
  end.

Definition lib : DatetimeLib := {| strptime := iso_strptime |}.

(** The columns of a model whose primary key is [id]. *)
Definition id_field : Field := mkField "id" "id" [IntegerField].
Definition name_field : Field := mkField "name" "id" [CharField].
Definition active_field : Field := mkField "active" "id" [BooleanField].
Definition created_field : Field := mkField "created" "id" [DateTimeField].

(** A query that selects every column. *)
Definition users : Query :=
  mkQuery [id_field; name_field; active_field; created_field] [] [].

(** A query that selects one column, which is not the primary key. *)
Definition user_names : Query := mkQuery [name_field] [] [].

End Sample.

(** ** Notions the statements are written with *)

(** The result of the first format, in list order, under which [raw]
    parses; [None] when it parses under none. *)
Fixpoint first_successful_parse `{DatetimeLib} (raw : string)
    (formats : list string) : option datetime :=
  match formats with
  | [] => None
  | format :: formats' =>
      match strptime raw format with
      | Some d => Some d
      | None => first_successful_parse raw formats'
      end
  end.

(** The sort key an ordering token stands for: the selected column it
    names, descending when the token starts with a minus sign and
    ascending otherwise. *)
Definition ordering_term (query : Query) (token : string) (k : SortKey)
    : Prop :=
  if startswith "-" token then
    exists field, BaseFilter.get_field_py query (Py.tail token) = Ok field
                  /\ k = Desc field
  else
    exists field, BaseFilter.get_field_py query token = Ok field
                  /\ k = Asc field.

(** A parameter key the predicate filter skips: it does not parse, or it
    names no selected column, or the adapter of the column it names reports
    its operator unsupported. *)
Definition skipped (query : Query) (param_key : string) : Prop :=
  match DefaultFilter.split_operator param_key with
  | None => True
  | Some d =>
      ~ In (DefaultFilter.key d) (BaseFilter.get_valid_field_name_list query)
      \/ exists field,
           BaseFilter.get_field_py query (DefaultFilter.key d) = Ok field
           /\ is_support_operator (DefaultFilter.get_filter_field field)
                                  (DefaultFilter.operator d) = false
  end.

(** No newline among the characters of [s]. *)
Definition one_line (s : string) : Prop :=
  ~ In "010"%char (list_ascii_of_string s).

(** The comparison functions that go with each adapter class: equality
    and inequality only on a boolean column, no pattern match on an
    integer or date-time column, anything on a text or unmapped column. *)
Definition compatible (c : filter_field_cls) (op : pyoperator) : bool :=
  match c with
  | BooleanAdapter => match op with eq | ne => true | _ => false end
  | IntegerAdapter | DateTimeAdapter =>
      match op with mod_ | pow => false | _ => true end
  | CharAdapter | DefaultAdapter => true
  end.

(** The same query with further [where] and [order_by] calls recorded. *)
Definition extended (query : Query) (added : list Expression)
    (keys : list SortKey) : Query :=
  mkQuery (selected_columns query) (where_calls query ++ added)
          (order_by_calls query ++ keys).

(** A predicate as the filter builds them from a parameter: a comparison
    over one of the given columns, with a comparison function that goes
    with the column's adapter and a value coerced by that adapter. *)
Definition typed_comparison `{DatetimeLib} (columns : list Field)
    (e : Expression) : Prop :=
  match e with
  | Compare op field v =>
      In field columns
      /\ compatible (cls (DefaultFilter.get_filter_field field)) op = true
      /\ exists raw : string,
           v = parse_value (DefaultFilter.get_filter_field field) raw
  | IsNull _ _ => False
  end.

(** ** Membership and lookup *)

Lemma contains_In (x : string) (xs : list string) :
  contains x xs = true <-> In x xs.
Proof.
  unfold contains. rewrite existsb_exists. split.
  - intros [y [Hy Heq]]. apply String.eqb_eq in Heq. now subst.
  - intros Hin. exists x. split; [assumption | apply String.eqb_refl].
Qed.

Lemma contains_not_In (x : string) (xs : list string) :
  contains x xs = false <-> ~ In x xs.
Proof.
  rewrite <- contains_In. destruct (contains x xs); split; intros Hx;
    try discriminate; try reflexivity; try congruence.
Qed.

Lemma get_field_py_found (query : Query) (field_name : string) :
  In field_name (BaseFilter.get_valid_field_name_list query) ->
  exists field, BaseFilter.get_field_py query field_name = Ok field
                /\ In field (selected_columns query)
                /\ name field = field_name.
Proof.
  unfold BaseFilter.get_valid_field_name_list, BaseFilter.get_field_py.
  intros Hin. apply in_map_iff in Hin. destruct Hin as [f [Hname Hf]].
  destruct (find _ (selected_columns query)) as [g|] eqn:Hfind.
  - exists g. apply find_some in Hfind. destruct Hfind as [Hg Heq].
    apply String.eqb_eq in Heq. auto.
  - exfalso. apply (find_none _ _ Hfind) in Hf.
    rewrite Hname, String.eqb_refl in Hf. discriminate.
Qed.

Lemma get_field_py_raises (query : Query) (field_name : string) (e : exn) :
  BaseFilter.get_field_py query field_name = Raise e ->
  ~ In field_name (BaseFilter.get_valid_field_name_list query).
Proof.
  intros Hraise Hin. apply get_field_py_found in Hin.
  destruct Hin as [f [Hok _]]. congruence.
Qed.

Lemma get_field_py_same_columns (q q' : Query) (field_name : string) :
  selected_columns q' = selected_columns q ->
  BaseFilter.get_field_py q' field_name = BaseFilter.get_field_py q field_name.
Proof. unfold BaseFilter.get_field_py. now intros ->. Qed.

Lemma valid_names_same_columns (q q' : Query) :
  selected_columns q' = selected_columns q ->
  BaseFilter.get_valid_field_name_list q'
  = BaseFilter.get_valid_field_name_list q.
Proof. unfold BaseFilter.get_valid_field_name_list. now intros ->. Qed.

(** ** Field type adapters *)

(** C6: the text and default adapters support every operator token; the
    boolean adapter supports a token exactly when it is none of >=, <=, >,
    <, LIKE, ILIKE; the integer and date-time adapters support a token
    exactly when it is neither LIKE nor ILIKE. *)
Theorem is_support_operator_table (operator : string) :
  FilterCharField.is_support_operator operator = true
  /\ FilterDefaultField.is_support_operator operator = true
  /\ (FilterBooleanField.is_support_operator operator = true <->
      operator <> ">=" /\ operator <> "<=" /\ operator <> ">"
      /\ operator <> "<" /\ operator <> "LIKE" /\ operator <> "ILIKE")
  /\ (FilterIntegerField.is_support_operator operator = true <->
      operator <> "LIKE" /\ operator <> "ILIKE")
  /\ (FilterDateTimeField.is_support_operator operator = true <->
      operator <> "LIKE" /\ operator <> "ILIKE").
Proof.
  split; [reflexivity|]. split; [reflexivity|].
  unfold FilterBooleanField.is_support_operator,
    FilterIntegerField.is_support_operator,
    FilterDateTimeField.is_support_operator.
  rewrite !negb_true_iff, !contains_not_In. simpl.
  repeat split; intros; intuition congruence.
Qed.

(** The same table through the adapter objects the registry builds. *)
Lemma is_support_operator_dispatch (field : Field) (operator : string) :
  is_support_operator (mkFilterField CharAdapter field) operator
  = FilterCharField.is_support_operator operator
  /\ is_support_operator (mkFilterField IntegerAdapter field) operator
     = FilterIntegerField.is_support_operator operator
  /\ is_support_operator (mkFilterField BooleanAdapter field) operator
     = FilterBooleanField.is_support_operator operator
  /\ is_support_operator (mkFilterField DateTimeAdapter field) operator
     = FilterDateTimeField.is_support_operator operator
  /\ is_support_operator (mkFilterField DefaultAdapter field) operator
     = FilterDefaultField.is_support_operator operator.
Proof. repeat split. Qed.

(** C9: the boolean adapter coerces a raw string to a boolean that is true
    exactly when the string is the literal true in lower case; True and 1
    coerce to false. *)
Theorem boolean_parse_value_exact (raw : string) :
  (exists b, FilterBooleanField.parse_value raw = VBool b
             /\ (b = true <-> raw = "true"))
  /\ FilterBooleanField.parse_value "true" = VBool true
  /\ FilterBooleanField.parse_value "True" = VBool false
  /\ FilterBooleanField.parse_value "1" = VBool false.
Proof.
  split; [|repeat split].
  exists (String.eqb raw "true"). split; [reflexivity|].
  apply String.eqb_eq.
Qed.

Lemma try_formats_first_success `{DatetimeLib} (raw : string)
    (formats : list string) :
  FilterDateTimeField.try_formats raw formats
  = match first_successful_parse raw formats with
    | Some d => VDatetime d
    | None => VStr raw
    end.
Proof.
  induction formats as [|format formats IH]; simpl; [reflexivity|].
  destruct (strptime raw format); [reflexivity | exact IH].
Qed.

(** What [first_successful_parse] finds: the format it stops at parses and
    every format before it fails; it finds nothing only when all fail. *)
Lemma first_successful_parse_spec `{DatetimeLib} (raw : string)
    (formats : list string) :
  match first_successful_parse raw formats with
  | Some d =>
      exists before format after,
        formats = before ++ format :: after
        /\ Forall (fun f => strptime raw f = None) before
        /\ strptime raw format = Some d
  | None => Forall (fun f => strptime raw f = None) formats
  end.
Proof.
  induction formats as [|format formats IH]; simpl; [constructor|].
  destruct (strptime raw format) as [d|] eqn:Hparse.
  - exists [], format, formats. repeat split; auto.
  - destruct (first_successful_parse raw formats) as [d|].
    + destruct IH as [before [f [after [Heq [Hfail Hok]]]]].
      exists (format :: before), f, after. subst. repeat split; auto.
    + constructor; assumption.
Qed.

(** C8: the date-time adapter tries the configured formats in list order,
    the list being the single format %Y-%m-%dT%H:%M:%S; it returns the first
    successful parse as a datetime, and the raw string itself when no format
    parses; it always returns a value. *)
Theorem datetime_parse_value_first_format `{DatetimeLib} (raw : string) :
  FilterDateTimeField.FORMATS = ["%Y-%m-%dT%H:%M:%S"]
  /\ FilterDateTimeField.parse_value raw
     = match first_successful_parse raw FilterDateTimeField.FORMATS with
       | Some d => VDatetime d
       | None => VStr raw
       end
  /\ FilterDateTimeField.parse_value raw
     = match strptime raw "%Y-%m-%dT%H:%M:%S" with
       | Some d => VDatetime d
       | None => VStr raw
       end.
Proof.
  split; [reflexivity|]. split.
  - apply try_formats_first_success.
  - unfold FilterDateTimeField.parse_value, FilterBaseField.parse_value.
    simpl. destruct (strptime raw _); reflexivity.
Qed.

Example datetime_parse_value_iso :
  @FilterDateTimeField.parse_value Sample.lib "2024-01-02T03:04:05"
  = VDatetime (mkDatetime 2024 1 2 3 4 5).
Proof. reflexivity. Qed.

Example datetime_parse_value_fallback :
  @FilterDateTimeField.parse_value Sample.lib "yesterday" = VStr "yesterday".
Proof. reflexivity. Qed.

(** ** The parameter key grammar *)

Lemma operator_pattern_text :
  DefaultFilter.operator_pattern = "==|!=|>=|<=|>|<|LIKE|ILIKE|is_null".
Proof. reflexivity. Qed.

(** The closing parenthesis written after the interpolated alternation
    belongs to its last branch only. *)
Lemma operator_alternatives_list :
  DefaultFilter.operator_alternatives
  = ["=="; "!="; ">="; "<="; ">"; "<"; "LIKE"; "ILIKE"; "is_null)"].
Proof. reflexivity. Qed.

Lemma prefix_app (a post : string) : String.prefix a (a ++ post) = true.
Proof.
  induction a as [|c a IH]; simpl.
  - now destruct post.
  - destruct (ascii_dec c c); [exact IH | congruence].
Qed.

Lemma prefix_split (a s : string) :
  String.prefix a s = true -> exists post, s = (a ++ post)%string.
Proof.
  revert s. induction a as [|c a IH]; intros s Hp.
  - exists s. reflexivity.
  - destruct s as [|c' s]; simpl in Hp; [discriminate|].
    destruct (ascii_dec c c'); [|discriminate]. subst c'.
    destruct (IH _ Hp) as [post ->]. exists post. reflexivity.
Qed.

Lemma match_at_cons (c : ascii) (s : string) :
  DefaultFilter.match_at (String c s)
  = let give_back :=
      match DefaultFilter.match_paren_operator (String c s) with
      | Some op => Some (DefaultFilter.mkGroupdict EmptyString op)
      | None => None
      end in
    if Ascii.eqb c "010" then give_back
    else match DefaultFilter.match_at s with
         | Some d => Some (DefaultFilter.mkGroupdict
                             (String c (DefaultFilter.key d))
                             (DefaultFilter.operator d))
         | None => give_back
         end.
Proof. reflexivity. Qed.

Lemma search_of_match_at (s : string) (d : DefaultFilter.groupdict) :
  DefaultFilter.match_at s = Some d -> DefaultFilter.search s = Some d.
Proof. intros Hm. destruct s; simpl; simpl in Hm; now rewrite Hm. Qed.

Lemma one_line_cons (c : ascii) (s : string) :
  one_line (String c s) -> Ascii.eqb c "010" = false /\ one_line s.
Proof.
  unfold one_line. simpl. intros Hnl. split.
  - apply Ascii.eqb_neq. intros ->. apply Hnl. now left.
  - intros Hin. apply Hnl. now right.
Qed.

(** A one-line field name followed by the is_null suffix: the greedy prefix
    is the field name, and the operator group takes the closing parenthesis
    with it. *)
Lemma match_at_is_null (f : string) :
  one_line f ->
  DefaultFilter.match_at (f ++ "(is_null)")
  = Some (DefaultFilter.mkGroupdict f "is_null)").
Proof.
  induction f as [|c f IH]; intros Hline.
  - reflexivity.
  - apply one_line_cons in Hline. destruct Hline as [Hc Hf].
    change ((String c f ++ "(is_null)")%string)
      with (String c (f ++ "(is_null)")).
    rewrite match_at_cons. cbv zeta. rewrite Hc, (IH Hf). reflexivity.
Qed.

Lemma split_operator_is_null (f : string) :
  one_line f ->
  DefaultFilter.split_operator (f ++ "(is_null)")
  = Some (DefaultFilter.mkGroupdict f "is_null)").
Proof.
  intros Hline. apply search_of_match_at, match_at_is_null, Hline.
Qed.

Lemma match_operator_sound (s op : string) :
  DefaultFilter.match_operator s = Some op ->
  In op DefaultFilter.operator_alternatives
  /\ exists post, s = (op ++ post)%string.
Proof.
  unfold DefaultFilter.match_operator. intros Hfind.
  apply find_some in Hfind. destruct Hfind as [Hin Hp].
  split; [assumption | now apply prefix_split].
Qed.

Lemma match_paren_operator_sound (s op : string) :
  DefaultFilter.match_paren_operator s = Some op ->
  In op DefaultFilter.operator_alternatives
  /\ exists post, s = ("(" ++ op ++ post)%string.
Proof.
  destruct s as [|c s]; simpl; [discriminate|].
  destruct c as [[] [] [] [] [] [] [] []]; try discriminate.
  intros Hm. apply match_operator_sound in Hm.
  destruct Hm as [Hin [post ->]]. split; [assumption|]. now exists post.
Qed.

Lemma match_at_sound (s : string) (d : DefaultFilter.groupdict) :
  DefaultFilter.match_at s = Some d ->
  In (DefaultFilter.operator d) DefaultFilter.operator_alternatives
  /\ one_line (DefaultFilter.key d)
  /\ exists post,
       s = (DefaultFilter.key d ++ "(" ++ DefaultFilter.operator d
            ++ post)%string.
Proof.
  assert (Hback : forall s d,
             match DefaultFilter.match_paren_operator s with
             | Some op => Some (DefaultFilter.mkGroupdict EmptyString op)
             | None => None
             end = Some d ->
             In (DefaultFilter.operator d) DefaultFilter.operator_alternatives
             /\ one_line (DefaultFilter.key d)
             /\ exists post,
                  s = (DefaultFilter.key d ++ "("
                       ++ DefaultFilter.operator d ++ post)%string).
  { intros s0 d0 Hb.
    destruct (DefaultFilter.match_paren_operator s0) as [op|] eqn:Hm;
      [|discriminate].
    injection Hb as <-. apply match_paren_operator_sound in Hm.
    destruct Hm as [Hin [post ->]]. simpl.
    split; [assumption|]. split; [intros []|]. now exists post. }
  revert d. induction s as [|c s IH]; intros d.
  - simpl. intros Hm. discriminate.
  - rewrite match_at_cons. cbv zeta.
    destruct (Ascii.eqb c "010") eqn:Hc; [apply Hback|].
    destruct (DefaultFilter.match_at s) as [d'|]; [|apply Hback].
    intros Hm. injection Hm as <-. simpl.
    destruct (IH d' Logic.eq_refl) as [Hin [Hline [post ->]]].
    split; [assumption|]. split.
    + unfold one_line. simpl. intros [Heq | Hin'].
      * subst c. discriminate.
      * now apply Hline.
    + now exists post.
Qed.

(** What a match of [split_operator] looks like in the key: an opening
    parenthesis followed by one of the alternatives, the text of the line
    before it being the field name.  Nothing is asked of what follows. *)
Lemma split_operator_sound (param_key : string)
    (d : DefaultFilter.groupdict) :
  DefaultFilter.split_operator param_key = Some d ->
  In (DefaultFilter.operator d) DefaultFilter.operator_alternatives
  /\ one_line (DefaultFilter.key d)
  /\ exists pre post,
       param_key = (pre ++ DefaultFilter.key d ++ "("
                    ++ DefaultFilter.operator d ++ post)%string.
Proof.
  unfold DefaultFilter.split_operator. revert d.
  induction param_key as [|c s IH]; intros d.
  - simpl. discriminate.
  - change (DefaultFilter.search (String c s))
      with (match DefaultFilter.match_at (String c s) with
            | Some d => Some d
            | None => DefaultFilter.search s
            end).
    destruct (DefaultFilter.match_at (String c s)) as [d'|] eqn:Hm.
    + intros Hd. injection Hd as <-. apply match_at_sound in Hm.
      destruct Hm as [Hin [Hline [post Heq]]].
      split; [assumption|]. split; [assumption|].
      exists EmptyString, post. exact Heq.
    + intros Hs. destruct (IH d Hs) as [Hin [Hline [pre [post ->]]]].
      split; [assumption|]. split; [assumption|].
      exists (String c pre), post. reflexivity.
Qed.

Lemma match_at_of_paren_operator (s : string) :
  DefaultFilter.match_paren_operator s <> None ->
  DefaultFilter.match_at s <> None.
Proof.
  intros Hm. destruct s as [|c s].
  - exfalso. apply Hm. reflexivity.
  - rewrite match_at_cons. cbv zeta.
    destruct (DefaultFilter.match_paren_operator (String c s));
      [|congruence].
    destruct (Ascii.eqb c "010"); [discriminate|].
    destruct (DefaultFilter.match_at s); discriminate.
Qed.

(** Every key that holds an opening parenthesis followed by one of the
    alternatives is matched, whatever comes before and after. *)
Lemma split_operator_complete (pre alt post : string) :
  In alt DefaultFilter.operator_alternatives ->
  DefaultFilter.split_operator (pre ++ "(" ++ alt ++ post) <> None.
Proof.
  intros Hin. unfold DefaultFilter.split_operator.
  induction pre as [|c pre IH].
  - assert (Hm : DefaultFilter.match_at ("(" ++ alt ++ post) <> None).
    { apply match_at_of_paren_operator. simpl.
      unfold DefaultFilter.match_operator. intros Hnone.
      apply (find_none _ _ Hnone) in Hin.
      rewrite prefix_app in Hin. discriminate. }
    change (EmptyString ++ "(" ++ alt ++ post)%string
      with ("(" ++ alt ++ post)%string.
    destruct (DefaultFilter.match_at ("(" ++ alt ++ post)) as [d|] eqn:Hd;
      [|congruence].
    rewrite (search_of_match_at _ _ Hd). discriminate.
  - change (DefaultFilter.search (String c pre ++ "(" ++ alt ++ post))
      with (match DefaultFilter.match_at
                    (String c (pre ++ "(" ++ alt ++ post)) with
            | Some d => Some d
            | None => DefaultFilter.search (pre ++ "(" ++ alt ++ post)
            end).
    destruct (DefaultFilter.match_at _); [discriminate | exact IH].
Qed.

(** The three keys the specification gives as examples. *)
Lemma split_operator_examples :
  DefaultFilter.split_operator "age(>=)"
  = Some (DefaultFilter.mkGroupdict "age" ">=")
  /\ DefaultFilter.split_operator "age" = None
  /\ DefaultFilter.split_operator "age(BETWEEN)" = None.
Proof. repeat split. Qed.

(** C2: the closing parenthesis is not required after a comparison token,
    and is captured as part of the operator after is_null: a key with no
    closing parenthesis at all still parses, and the operator parsed from a
    well-formed is_null key is not the registered token. *)
Theorem split_operator_closing_parenthesis :
  DefaultFilter.split_operator "age(>="
  = Some (DefaultFilter.mkGroupdict "age" ">=")
  /\ DefaultFilter.split_operator "age(is_null)"
     = Some (DefaultFilter.mkGroupdict "age" "is_null)")
  /\ contains "is_null)" DefaultFilter.SUPPORT_METHOD = false.
Proof. repeat split. Qed.

(** ** The ordering filter *)

Lemma ordering_term_same_columns (q q' : Query) (token : string)
    (k : SortKey) :
  selected_columns q' = selected_columns q ->
  ordering_term q' token k -> ordering_term q token k.
Proof.
  unfold ordering_term. intros Hcols.
  rewrite !(fun n => get_field_py_same_columns q q' n Hcols). trivial.
Qed.

(** A token that passed [term_valid] resolves: the loop body finds its
    column and hands the matching sort key to [order_by]. *)
Lemma order_by_field_name_valid (query : Query) (field_name : string) :
  OrderingFilter.term_valid
    (BaseFilter.get_valid_field_name_list query) field_name = true ->
  exists k, ordering_term query field_name k
            /\ OrderingFilter.order_by_field_name query field_name
               = Ok (order_by query k).
Proof.
  unfold OrderingFilter.term_valid, OrderingFilter.order_by_field_name,
    ordering_term.
  destruct (startswith "-" field_name); intros Hvalid;
    apply contains_In, get_field_py_found in Hvalid;
    destruct Hvalid as [field [Hget _]]; rewrite Hget; simpl.
  - exists (Desc field). split; [now exists field | reflexivity].
  - exists (Asc field). split; [now exists field | reflexivity].
Qed.

(** The loop over valid tokens never fails; it calls [order_by] once per
    token, in the order of the list, and touches nothing else. *)
Lemma for_each_valid (field_names : list string) :
  forall query : Query,
    Forall (fun t => OrderingFilter.term_valid
                       (BaseFilter.get_valid_field_name_list query) t = true)
           field_names ->
    exists keys query',
      Forall2 (ordering_term query) field_names keys
      /\ OrderingFilter.for_each query field_names = Ok query'
      /\ order_by_calls query' = order_by_calls query ++ keys
      /\ selected_columns query' = selected_columns query
      /\ where_calls query' = where_calls query.
Proof.
  induction field_names as [|t ts IH]; intros query Hvalid.
  - exists [], query. simpl. rewrite app_nil_r. repeat split. constructor.
  - inversion Hvalid as [|? ? Ht Hts]; subst.
    destruct (order_by_field_name_valid _ _ Ht) as [k [Hterm Hstep]].
    destruct (IH (order_by query k) Hts)
      as [keys [query' [Hterms [Hloop [Hcalls [Hcols Hwhere]]]]]].
    exists (k :: keys), query'. simpl. rewrite Hstep. simpl.
    repeat split; try assumption.
    + constructor; [assumption|].
      eapply Forall2_impl; [|exact Hterms].
      intros a b. apply ordering_term_same_columns. reflexivity.
    + rewrite Hcalls. simpl. now rewrite <- app_assoc.
Qed.

Lemma filter_valid_fields_valid (query : Query) (tokens : list string) :
  Forall (fun t => OrderingFilter.term_valid
                     (BaseFilter.get_valid_field_name_list query) t = true)
         (OrderingFilter.filter_valid_fields query tokens).
Proof.
  apply Forall_forall. intros t Hin.
  unfold OrderingFilter.filter_valid_fields in Hin.
  apply filter_In in Hin. tauto.
Qed.

Lemma field_name_list_valid (query : Query) (ordering_param : string) :
  Forall (fun t => OrderingFilter.term_valid
                     (BaseFilter.get_valid_field_name_list query) t = true)
         (OrderingFilter.field_name_list query ordering_param).
Proof.
  unfold OrderingFilter.field_name_list.
  destruct (truthy ordering_param);
    [apply filter_valid_fields_valid | constructor].
Qed.




Example ordering_name_then_id_descending :
  exists query',
    OrderingFilter.filter Sample.users (Some " name , -id,bogus") = Ok query'
    /\ order_by_calls query' = [Desc Sample.id_field; Asc Sample.name_field]
    /\ sort_precedence query' = [Asc Sample.name_field; Desc Sample.id_field].
Proof. eexists. repeat split. Qed.

Lemma field_name_list_empty (query : Query) (ordering_param : string) :
  ordering_param = ""
  \/ (forall token,
         In token (map strip (split "," ordering_param)) ->
         OrderingFilter.term_valid
           (BaseFilter.get_valid_field_name_list query) token = false) ->
  OrderingFilter.field_name_list query ordering_param = [].
Proof.
  unfold OrderingFilter.field_name_list.
  intros [-> | Hinvalid]; [reflexivity|].
  destruct (truthy ordering_param); [|reflexivity].
  unfold OrderingFilter.filter_valid_fields.
  destruct (List.filter _ _) as [|t ts] eqn:Hfilter; [reflexivity|].
  assert (Hin : In t (t :: ts)) by now left.
  rewrite <- Hfilter in Hin. apply filter_In in Hin.
  destruct Hin as [Hin Htrue]. rewrite (Hinvalid _ Hin) in Htrue.
  discriminate.
Qed.

Lemma filter_of_empty_field_name_list (query : Query)
    (ordering_param : string) :
  OrderingFilter.field_name_list query ordering_param = [] ->
  OrderingFilter.filter query (Some ordering_param) = Ok query.
Proof. intros Hempty. unfold OrderingFilter.filter. now rewrite Hempty. Qed.

(** C4: a parameter that is not None and in which no token survives validity
    filtering, the empty parameter included, leaves the queryable exactly as
    it was: no sort key is added, the identity field is not used, and
    nothing is raised. *)
Theorem ordering_without_valid_token (query : Query)
    (ordering_param : string) :
  ordering_param = ""
  \/ (forall token,
         In token (map strip (split "," ordering_param)) ->
         OrderingFilter.term_valid
           (BaseFilter.get_valid_field_name_list query) token = false) ->
  OrderingFilter.filter query (Some ordering_param) = Ok query.
Proof.
  intros Hnone.
  apply filter_of_empty_field_name_list, field_name_list_empty, Hnone.
Qed.

Lemma ordering_without_valid_token_witness :
  OrderingFilter.filter Sample.users (Some "bogus_field") = Ok Sample.users.
Proof.
  apply (@ordering_without_valid_token Sample.users "bogus_field").
  right. simpl. intros token [<- | []]. reflexivity.
Defined.

(** A parameter made of white space only has the single token that is the
    empty string, so it adds no sort key unless a selected column is named
    by the empty string. *)
Lemma rstrip_empty (s : string) :
  rstrip s = "" -> Forall (fun c => isspace c = true) (list_ascii_of_string s).
Proof.
  induction s as [|c s IH]; simpl; [constructor|].
  destruct (rstrip s) as [|c' r]; [|discriminate].
  destruct (isspace c) eqn:Hc; [|discriminate].
  intros _. constructor; [assumption | now apply IH].
Qed.

Lemma lstrip_blank (s : string) :
  Forall (fun c => isspace c = true) (list_ascii_of_string (lstrip s)) ->
  Forall (fun c => isspace c = true) (list_ascii_of_string s).
Proof.
  induction s as [|c s IH]; simpl; [trivial|].
  destruct (isspace c) eqn:Hc; [|trivial].
  intros Hrest. constructor; [assumption | now apply IH].
Qed.

Lemma split_blank (s : string) :
  Forall (fun c => isspace c = true) (list_ascii_of_string s) ->
  split "," s = [s].
Proof.
  induction s as [|c s IH]; simpl; [reflexivity|].
  intros Hblank. inversion Hblank as [|? ? Hc Hs]; subst.
  destruct (Ascii.eqb c ",") eqn:Hcomma.
  - apply Ascii.eqb_eq in Hcomma. subst c. discriminate.
  - now rewrite (IH Hs).
Qed.

(** X17: a parameter that is white space only adds no sort key and raises
    nothing, provided no selected column is named by the empty string. *)
Lemma ordering_blank_parameter (query : Query) (ordering_param : string) :
  strip ordering_param = "" ->
  ~ In "" (BaseFilter.get_valid_field_name_list query) ->
  OrderingFilter.filter query (Some ordering_param) = Ok query.
Proof.
  intros Hstrip Hname.
  apply filter_of_empty_field_name_list, field_name_list_empty. right.
  assert (Hblank : Forall (fun c => isspace c = true)
                          (list_ascii_of_string ordering_param)).
  { apply lstrip_blank, rstrip_empty, Hstrip. }
  rewrite (split_blank _ Hblank). simpl. rewrite Hstrip.
  intros token [<- | []]. unfold OrderingFilter.term_valid. simpl.
  now apply contains_not_In.
Qed.

(** With a primary key among the selected columns, an absent parameter
    orders by the first selected column that is its model's primary key,
    ascending. *)
Lemma ordering_default_primary_key (query : Query) (field : Field) :
  OrderingFilter.get_default_ordering_field query = Some field ->
  In field (selected_columns query)
  /\ primary_key_name field = name field
  /\ OrderingFilter.filter query None = Ok (order_by query (Asc field)).
Proof.
  intros Hfind. unfold OrderingFilter.filter. rewrite Hfind.
  unfold OrderingFilter.get_default_ordering_field in Hfind.
  apply find_some in Hfind. destruct Hfind as [Hin Heq].
  apply String.eqb_eq in Heq. auto.
Qed.

(** Without one, the lookup finds nothing and [order_by] receives None. *)
Lemma ordering_default_no_primary_key (query : Query) :
  Forall (fun field => primary_key_name field <> name field)
         (selected_columns query) ->
  OrderingFilter.filter query None = Ok (order_by query NoKey).
Proof.
  intros Hnone. unfold OrderingFilter.filter.
  destruct (OrderingFilter.get_default_ordering_field query) as [field|]
    eqn:Hfind; [|reflexivity].
  apply find_some in Hfind. destruct Hfind as [Hin Heq].
  apply String.eqb_eq in Heq.
  rewrite Forall_forall in Hnone. now elim (Hnone field Hin).
Qed.

(** C7: on a query whose selected columns do not include the primary key,
    an absent parameter does not order by the identity field: the lookup
    falls through and [order_by] receives None. *)
Theorem ordering_default_without_primary_key :
  OrderingFilter.get_default_ordering_field Sample.user_names = None
  /\ OrderingFilter.filter Sample.user_names None
     = Ok (order_by Sample.user_names NoKey)
  /\ forall field : Field,
       OrderingFilter.filter Sample.user_names None
       <> Ok (order_by Sample.user_names (Asc field)).
Proof.
  repeat split. intros field Heq. discriminate.
Qed.

(** ** The predicate filter *)

Section PredicateFilter.
Context `{DatetimeLib}.

Lemma filter_param_same_columns (query query' : Query)
    (param : string * string) :
  DefaultFilter.filter_param query param = Ok query' ->
  selected_columns query' = selected_columns query.
Proof.
  destruct param as [param_key value]. unfold DefaultFilter.filter_param.
  repeat match goal with
         | |- context [match ?x with _ => _ end] => destruct x
         | |- context [if ?x then _ else _] => destruct x
         | |- context [Py.bind ?x _] => destruct x; simpl
         end;
    intros Hok; try discriminate; injection Hok as <-; reflexivity.
Qed.

Lemma filter_cons (query : Query) (param : string * string)
    (rest : list (string * string)) :
  DefaultFilter.filter query (param :: rest)
  = (query' <- DefaultFilter.filter_param query param ;;
     DefaultFilter.filter query' rest).
Proof. reflexivity. Qed.

Lemma filter_param_skipped (query : Query) (param_key value : string) :
  skipped query param_key ->
  DefaultFilter.filter_param query (param_key, value) = Ok query.
Proof.
  unfold skipped, DefaultFilter.filter_param.
  destruct (DefaultFilter.split_operator param_key) as [d|];
    [|reflexivity].
  destruct (contains (DefaultFilter.key d)
              (BaseFilter.get_valid_field_name_list query)) eqn:Hvalid;
    [|reflexivity].
  simpl. intros [Hunknown | [field [Hget Hunsupported]]].
  - apply contains_In in Hvalid. contradiction.
  - rewrite Hget. simpl. rewrite Hunsupported. reflexivity.
Qed.

Lemma skipped_same_columns (q q' : Query) (param_key : string) :
  selected_columns q' = selected_columns q ->
  skipped q param_key -> skipped q' param_key.
Proof.
  unfold skipped. intros Hcols.
  destruct (DefaultFilter.split_operator param_key) as [d|]; [|trivial].
  rewrite (valid_names_same_columns _ _ Hcols).
  rewrite (fun n => get_field_py_same_columns q q' n Hcols). trivial.
Qed.

(** X18: a pair whose key does not parse, or names no selected column, or
    carries an operator the column's adapter reports unsupported, is
    passed over: its turn of the loop returns the query untouched and
    raises nothing, and wherever the pair stands in the mapping the filter
    does what it does without it. *)
Theorem skipped_pair_contributes_nothing (query : Query)
    (param_key value : string) :
  skipped query param_key ->
  DefaultFilter.filter_param query (param_key, value) = Ok query
  /\ forall before after : list (string * string),
       DefaultFilter.filter query
         (before ++ (param_key, value) :: after)
       = DefaultFilter.filter query (before ++ after).
Proof.
  intros Hskip. split; [now apply filter_param_skipped|].
  intros before. revert query Hskip.
  induction before as [|param before IH]; intros query Hskip after.
  - change (([] : list (string * string)) ++ (param_key, value) :: after)
      with ((param_key, value) :: after).
    rewrite filter_cons, (filter_param_skipped _ _ value Hskip).
    reflexivity.
  - rewrite <- !app_comm_cons, !filter_cons.
    destruct (DefaultFilter.filter_param query param)
      as [query'|e] eqn:Hstep; simpl; [|reflexivity].
    apply IH. eapply skipped_same_columns; [|exact Hskip].
    eapply filter_param_same_columns; exact Hstep.
Qed.

Lemma MAP_getitem_raises (operator : string) (e : exn) :
  DefaultFilter.MAP_getitem operator = Raise e -> e = KeyError operator.
Proof.
  unfold DefaultFilter.MAP_getitem.
  destruct (find _ DefaultFilter.MAP); [discriminate|].
  intros Hraise. now injection Hraise.
Qed.

(** The only exception a turn of the loop can raise is the [KeyError] of
    the operator table. *)
Lemma filter_param_raises (query : Query) (param : string * string)
    (e : exn) :
  DefaultFilter.filter_param query param = Raise e ->
  exists operator, e = KeyError operator.
Proof.
  destruct param as [param_key value]. unfold DefaultFilter.filter_param.
  destruct (DefaultFilter.split_operator param_key) as [d|];
    [|discriminate].
  destruct (contains (DefaultFilter.key d)
              (BaseFilter.get_valid_field_name_list query)) eqn:Hvalid;
    [|discriminate].
  cbn [negb]. apply contains_In, get_field_py_found in Hvalid.
  destruct Hvalid as [field [Hget _]]. rewrite Hget. cbn [Py.bind].
  destruct (negb (is_support_operator _ _)); [discriminate|].
  destruct (contains (DefaultFilter.operator d)
              DefaultFilter.SUPPORT_METHOD); [discriminate|].
  destruct (DefaultFilter.MAP_getitem (DefaultFilter.operator d))
    as [compare|e'] eqn:Hmap; simpl; [discriminate|].
  intros Hraise. injection Hraise as <-.
  exists (DefaultFilter.operator d). now apply MAP_getitem_raises.
Qed.

Lemma filter_raises (query_params : list (string * string)) :
  forall (query : Query) (e : exn),
    DefaultFilter.filter query query_params = Raise e ->
    exists operator, e = KeyError operator.
Proof.
  induction query_params as [|param rest IH]; intros query e.
  - discriminate.
  - rewrite filter_cons.
    destruct (DefaultFilter.filter_param query param) as [query'|e']
      eqn:Hstep; simpl.
    + apply IH.
    + intros Hraise. injection Hraise as <-.
      eapply filter_param_raises; exact Hstep.
Qed.

End PredicateFilter.

Lemma skipped_pair_contributes_nothing_witness :
  @DefaultFilter.filter_param Sample.lib Sample.users ("active(LIKE)", "true")
  = Ok Sample.users
  /\ forall before after : list (string * string),
       @DefaultFilter.filter Sample.lib Sample.users
         (before ++ ("active(LIKE)", "true") :: after)
       = @DefaultFilter.filter Sample.lib Sample.users (before ++ after).
Proof.
  apply (@skipped_pair_contributes_nothing Sample.lib Sample.users
           "active(LIKE)" "true").
  right. exists Sample.active_field. split; reflexivity.
Defined.

(** The example of the specification: of the three pairs only the one on
    name adds a predicate. *)
Example filter_drops_unknown_and_unsupported :
  @DefaultFilter.filter Sample.lib Sample.users
    [("name(==)", "Alice"); ("unknown_field(==)", "x");
     ("active(LIKE)", "true")]
  = Ok (where_ Sample.users
          (Compare eq Sample.name_field (VStr "Alice"))).
Proof. reflexivity. Qed.

Lemma is_support_operator_is_null_paren (filter_field : FilterField) :
  is_support_operator filter_field "is_null)" = true.
Proof. destruct filter_field as [[] field]; reflexivity. Qed.

(** C1: for a selected one-line field name f, the key f(is_null) parses with
    the closing parenthesis inside the operator, which is then neither
    unsupported nor a method operator; the filter adds no null check and
    raises the KeyError of the operator table, whatever the value and
    whatever pairs follow. *)
Theorem is_null_key_raises_KeyError `{DatetimeLib} (query : Query)
    (f value : string) :
  In f (BaseFilter.get_valid_field_name_list query) ->
  one_line f ->
  DefaultFilter.split_operator (f ++ "(is_null)")
  = Some (DefaultFilter.mkGroupdict f "is_null)")
  /\ forall rest : list (string * string),
       DefaultFilter.filter query
         (((f ++ "(is_null)")%string, value) :: rest)
       = Raise (KeyError "is_null)").
Proof.
  intros Hin Hline. split; [now apply split_operator_is_null|].
  intros rest. rewrite filter_cons. unfold DefaultFilter.filter_param.
  rewrite (split_operator_is_null f Hline).
  cbn [DefaultFilter.key DefaultFilter.operator].
  pose proof Hin as Hvalid. apply contains_In in Hvalid. rewrite Hvalid.
  cbn [negb]. apply get_field_py_found in Hin.
  destruct Hin as [field [Hget _]]. rewrite Hget. cbn [Py.bind].
  rewrite is_support_operator_is_null_paren. reflexivity.
Qed.

Lemma is_null_key_raises_KeyError_witness :
  DefaultFilter.split_operator "name(is_null)"
  = Some (DefaultFilter.mkGroupdict "name" "is_null)")
  /\ forall rest : list (string * string),
       @DefaultFilter.filter Sample.lib Sample.users
         (("name(is_null)", "true") :: rest)
       = Raise (KeyError "is_null)").
Proof.
  apply (@is_null_key_raises_KeyError Sample.lib Sample.users "name" "true").
  - simpl. tauto.
  - unfold one_line. simpl. intros Hin.
    repeat (destruct Hin as [Hin | Hin]; [discriminate|]). exact Hin.
Defined.

(** ** Field lookup *)

(** C10: a lookup succeeds exactly on the selected field names; the
    predicate filter never raises the exception of a failed lookup, and the
    ordering filter raises nothing at all: both look a name up only after it
    was found among the selected field names. *)
Theorem field_not_found_unreachable `{DatetimeLib} (query : Query) :
  (forall field_name : string,
      In field_name (BaseFilter.get_valid_field_name_list query)
      <-> exists field,
            BaseFilter.get_field_py query field_name = Ok field)
  /\ (forall (query_params : list (string * string)) (msg : string),
         DefaultFilter.filter query query_params <> Raise (Exception msg))
  /\ (forall ordering_param : option string,
         exists query',
           OrderingFilter.filter query ordering_param = Ok query').
Proof.
  split; [|split].
  - intros field_name. split.
    + intros Hin. apply get_field_py_found in Hin.
      destruct Hin as [field [Hget _]]. now exists field.
    + intros [field Hget].
      unfold BaseFilter.get_field_py in Hget.
      destruct (find _ (selected_columns query)) as [g|] eqn:Hfind;
        [|discriminate].
      apply find_some in Hfind. destruct Hfind as [Hg Heq].
      apply String.eqb_eq in Heq. subst field_name.
      unfold BaseFilter.get_valid_field_name_list. now apply in_map.
  - intros query_params msg Hraise. apply filter_raises in Hraise.
    destruct Hraise as [operator Heq]. discriminate.
  - intros [ordering_param|].
    + pose proof (field_name_list_valid query ordering_param) as Hvalid.
      unfold OrderingFilter.filter.
      destruct (OrderingFilter.field_name_list query ordering_param)
        as [|t ts] eqn:Htokens; [now exists query|].
      apply Forall_rev in Hvalid.
      destruct (for_each_valid _ query Hvalid)
        as [keys [query' [_ [Hloop _]]]].
      now exists query'.
    + simpl. eexists. reflexivity.
Qed.

(** ** Further properties of the lookups *)

(** X1: looking a name up returns the first selected column that carries
    it, whatever columns of the same name come later. *)
Theorem get_field_py_first_match (query : Query) (before after : list Field)
    (field : Field) :
  selected_columns query = before ++ field :: after ->
  Forall (fun other => name other <> name field) before ->
  BaseFilter.get_field_py query (name field) = Ok field.
Proof.
  unfold BaseFilter.get_field_py. intros -> Hbefore.
  induction Hbefore as [|other before Hother _ IH]; simpl.
  - now rewrite String.eqb_refl.
  - apply String.eqb_neq in Hother. rewrite Hother. exact IH.
Qed.

Lemma get_field_py_first_match_witness :
  BaseFilter.get_field_py
    (mkQuery [Sample.id_field; Sample.name_field;
              mkField "name" "other" [IntegerField]] [] [])
    "name"
  = Ok Sample.name_field.
Proof.
  apply (get_field_py_first_match
           (mkQuery [Sample.id_field; Sample.name_field;
                     mkField "name" "other" [IntegerField]] [] [])
           [Sample.id_field] [mkField "name" "other" [IntegerField]]
           Sample.name_field).
  - reflexivity.
  - repeat constructor. discriminate.
Defined.

(** X2: a lookup raises exactly when the name is not a selected field name,
    and what it raises is the Exception whose message quotes that name. *)
Theorem get_field_py_raises_iff (query : Query) (field_name : string)
    (e : exn) :
  BaseFilter.get_field_py query field_name = Raise e
  <-> ~ In field_name (BaseFilter.get_valid_field_name_list query)
      /\ e = Exception ("Field " ++ field_name ++ " not found").
Proof.
  split.
  - intros Hraise. split; [eapply get_field_py_raises; exact Hraise|].
    unfold BaseFilter.get_field_py in Hraise.
    destruct (find _ (selected_columns query)); [discriminate|].
    now injection Hraise.
  - intros [Hnot ->]. unfold BaseFilter.get_field_py.
    destruct (find _ (selected_columns query)) as [g|] eqn:Hfind;
      [|reflexivity].
    exfalso. apply Hnot. apply find_some in Hfind.
    destruct Hfind as [Hg Heq]. apply String.eqb_eq in Heq. subst.
    unfold BaseFilter.get_valid_field_name_list. now apply in_map.
Qed.

Lemma get_filter_field_wraps (field : Field) :
  field_py (DefaultFilter.get_filter_field field) = field.
Proof.
  unfold DefaultFilter.get_filter_field.
  destruct (find _ DefaultFilter.FIELD_MAP); reflexivity.
Qed.

(** X3: the registry wraps the field it is given and picks the adapter of
    the first mapped class, in declaration order text, integer, boolean,
    date-time, that the field is an instance of; a field that is an
    instance of none gets the default adapter, which supports every
    operator and hands every value on unchanged. *)
Theorem get_filter_field_resolution `{DatetimeLib} (field : Field) :
  field_py (DefaultFilter.get_filter_field field) = field
  /\ cls (DefaultFilter.get_filter_field field)
     = (if isinstance field CharField then CharAdapter
        else if isinstance field IntegerField then IntegerAdapter
        else if isinstance field BooleanField then BooleanAdapter
        else if isinstance field DateTimeField then DateTimeAdapter
        else DefaultAdapter)
  /\ (instance_of field = [] ->
      forall operator value : string,
        is_support_operator (DefaultFilter.get_filter_field field) operator
        = true
        /\ parse_value (DefaultFilter.get_filter_field field) value
           = VStr value).
Proof.
  split; [apply get_filter_field_wraps|]. split.
  - unfold DefaultFilter.get_filter_field. simpl.
    destruct (isinstance field CharField); [reflexivity|].
    destruct (isinstance field IntegerField); [reflexivity|].
    destruct (isinstance field BooleanField); [reflexivity|].
    destruct (isinstance field DateTimeField); reflexivity.
  - intros Hnone operator value.
    unfold DefaultFilter.get_filter_field, isinstance. rewrite Hnone.
    split; reflexivity.
Qed.

(** ** Further properties of the key grammar *)

Lemma list_ascii_of_string_app (a b : string) :
  list_ascii_of_string (a ++ b)
  = list_ascii_of_string a ++ list_ascii_of_string b.
Proof. induction a as [|c a IH]; simpl; [reflexivity | now rewrite IH]. Qed.

Lemma string_app_assoc (a b c : string) :
  ((a ++ b) ++ c)%string = (a ++ b ++ c)%string.
Proof. induction a as [|x a IH]; simpl; [reflexivity | now rewrite IH]. Qed.

Lemma one_line_app (a b : string) :
  one_line (a ++ b) <-> one_line a /\ one_line b.
Proof.
  unfold one_line. rewrite list_ascii_of_string_app, in_app_iff. tauto.
Qed.

Lemma match_at_prepend (f s op : string) :
  one_line f ->
  DefaultFilter.match_at s = Some (DefaultFilter.mkGroupdict EmptyString op) ->
  DefaultFilter.match_at (f ++ s) = Some (DefaultFilter.mkGroupdict f op).
Proof.
  intros Hline Hs. induction f as [|c f IH]; [exact Hs|].
  apply one_line_cons in Hline. destruct Hline as [Hc Hf].
  change ((String c f ++ s)%string) with (String c (f ++ s)).
  rewrite match_at_cons. cbv zeta. rewrite Hc, (IH Hf). reflexivity.
Qed.

Lemma split_operator_of_comparison (f operator : string) :
  one_line f ->
  In operator (map fst DefaultFilter.MAP) ->
  DefaultFilter.split_operator (f ++ "(" ++ operator ++ ")")
  = Some (DefaultFilter.mkGroupdict f operator).
Proof.
  intros Hline Hop. apply search_of_match_at, match_at_prepend;
    [assumption|].
  simpl in Hop.
  repeat (destruct Hop as [<- | Hop]; [reflexivity|]). destruct Hop.
Qed.

(** X4: a one-line field name followed by a comparison token in
    parentheses parses back into exactly that name and that token, which
    the operator table then resolves. *)
Theorem split_operator_comparison_key (f operator : string) :
  one_line f ->
  In operator (map fst DefaultFilter.MAP) ->
  DefaultFilter.split_operator (f ++ "(" ++ operator ++ ")")
  = Some (DefaultFilter.mkGroupdict f operator)
  /\ exists op, DefaultFilter.MAP_getitem operator = Ok op.
Proof.
  intros Hline Hop. split; [now apply split_operator_of_comparison|].
  simpl in Hop.
  repeat (destruct Hop as [<- | Hop]; [eexists; reflexivity|]).
  destruct Hop.
Qed.

Lemma split_operator_comparison_key_witness :
  DefaultFilter.split_operator "created_at(<=)"
  = Some (DefaultFilter.mkGroupdict "created_at" "<=")
  /\ exists op, DefaultFilter.MAP_getitem "<=" = Ok op.
Proof.
  apply (split_operator_comparison_key "created_at" "<=").
  - unfold one_line. simpl. intros Hin.
    repeat (destruct Hin as [Hin | Hin]; [discriminate|]). exact Hin.
  - simpl. tauto.
Defined.

(** X5: a key is matched exactly when it holds, somewhere, an opening
    parenthesis directly followed by one of the nine alternatives; and
    then the operator returned is one of them. *)
Theorem split_operator_matches_iff (param_key : string) :
  (exists d, DefaultFilter.split_operator param_key = Some d
             /\ In (DefaultFilter.operator d)
                   ["=="; "!="; ">="; "<="; ">"; "<"; "LIKE"; "ILIKE";
                    "is_null)"])
  <-> exists pre alt post,
        In alt ["=="; "!="; ">="; "<="; ">"; "<"; "LIKE"; "ILIKE";
                "is_null)"]
        /\ param_key = (pre ++ "(" ++ alt ++ post)%string.
Proof.
  rewrite <- operator_alternatives_list. split.
  - intros [d [Hd _]]. apply split_operator_sound in Hd.
    destruct Hd as [Hin [_ [pre [post Heq]]]].
    exists (pre ++ DefaultFilter.key d)%string, (DefaultFilter.operator d),
      post.
    split; [assumption|]. rewrite Heq.
    now rewrite string_app_assoc.
  - intros [pre [alt [post [Hin ->]]]].
    pose proof (split_operator_complete pre alt post Hin) as Hsome.
    destruct (DefaultFilter.split_operator (pre ++ "(" ++ alt ++ post))
      as [d|] eqn:Hd; [|congruence].
    exists d. split; [reflexivity|].
    now apply split_operator_sound in Hd.
Qed.

Lemma match_paren_operator_complete (alt post : string) :
  In alt DefaultFilter.operator_alternatives ->
  DefaultFilter.match_paren_operator ("(" ++ alt ++ post) <> None.
Proof.
  intros Hin. simpl. unfold DefaultFilter.match_operator. intros Hnone.
  apply (find_none _ _ Hnone) in Hin. rewrite prefix_app in Hin.
  discriminate.
Qed.

Lemma match_at_complete (pre alt post : string) :
  one_line pre ->
  In alt DefaultFilter.operator_alternatives ->
  DefaultFilter.match_at (pre ++ "(" ++ alt ++ post) <> None.
Proof.
  intros Hline Hin. induction pre as [|c pre IH].
  - apply match_at_of_paren_operator, match_paren_operator_complete, Hin.
  - apply one_line_cons in Hline. destruct Hline as [Hc Hpre].
    change ((String c pre ++ "(" ++ alt ++ post)%string)
      with (String c (pre ++ "(" ++ alt ++ post)).
    rewrite match_at_cons. cbv zeta. rewrite Hc.
    destruct (DefaultFilter.match_at (pre ++ "(" ++ alt ++ post));
      [discriminate | now elim (IH Hpre)].
Qed.

Lemma give_back_key (s : string) (d : DefaultFilter.groupdict) :
  match DefaultFilter.match_paren_operator s with
  | Some op => Some (DefaultFilter.mkGroupdict EmptyString op)
  | None => None
  end = Some d ->
  DefaultFilter.key d = EmptyString.
Proof.
  destruct (DefaultFilter.match_paren_operator s); [|discriminate].
  intros Hd. now injection Hd as <-.
Qed.

(** The prefix taken by the greedy star is at least as long as any
    one-line prefix after which the rest of the pattern would match. *)
Lemma match_at_greedy (s : string) :
  forall d : DefaultFilter.groupdict,
    DefaultFilter.match_at s = Some d ->
    forall pre alt post : string,
      one_line pre ->
      In alt DefaultFilter.operator_alternatives ->
      s = (pre ++ "(" ++ alt ++ post)%string ->
      String.length pre <= String.length (DefaultFilter.key d).
Proof.
  induction s as [|c s IH]; intros d Hd pre alt post Hline Hin Heq.
  - destruct pre; discriminate.
  - destruct pre as [|c' pre]; [simpl; lia|].
    injection Heq as <- Hs.
    apply one_line_cons in Hline. destruct Hline as [Hc Hpre].
    rewrite match_at_cons in Hd. cbv zeta in Hd. rewrite Hc in Hd.
    destruct (DefaultFilter.match_at s) as [d'|] eqn:Hd'.
    + injection Hd as <-. simpl.
      apply le_n_S. eapply IH; [reflexivity | exact Hpre | exact Hin | exact Hs].
    + exfalso. rewrite Hs in Hd'.
      now apply (match_at_complete pre alt post Hpre Hin).
Qed.

Lemma search_one_line (s : string) :
  one_line s -> DefaultFilter.search s = DefaultFilter.match_at s.
Proof.
  induction s as [|c s IH]; intros Hline; [reflexivity|].
  apply one_line_cons in Hline. destruct Hline as [Hc Hs].
  change (DefaultFilter.search (String c s))
    with (match DefaultFilter.match_at (String c s) with
          | Some d => Some d
          | None => DefaultFilter.search s
          end).
  destruct (DefaultFilter.match_at (String c s)) as [d|] eqn:Hd;
    [reflexivity|].
  rewrite (IH Hs).
  rewrite match_at_cons in Hd. cbv zeta in Hd. rewrite Hc in Hd.
  destruct (DefaultFilter.match_at s); [discriminate | reflexivity].
Qed.

(** X6: on a key without a newline the match is anchored at the start and
    greedy: the key is the field name, an opening parenthesis, the operator
    and a rest, and no opening parenthesis further right is followed by an
    alternative. *)
Theorem split_operator_greedy (param_key : string)
    (d : DefaultFilter.groupdict) :
  one_line param_key ->
  DefaultFilter.split_operator param_key = Some d ->
  (exists post,
      param_key = (DefaultFilter.key d ++ "(" ++ DefaultFilter.operator d
                   ++ post)%string)
  /\ forall pre alt post : string,
       In alt DefaultFilter.operator_alternatives ->
       param_key = (pre ++ "(" ++ alt ++ post)%string ->
       String.length pre <= String.length (DefaultFilter.key d).
Proof.
  intros Hline Hd. unfold DefaultFilter.split_operator in Hd.
  rewrite (search_one_line _ Hline) in Hd. split.
  - apply match_at_sound in Hd. tauto.
  - intros pre alt post Hin Heq.
    apply (match_at_greedy _ d Hd pre alt post); try assumption.
    rewrite Heq in Hline. now apply one_line_app in Hline.
Qed.

Lemma split_operator_greedy_witness :
  (exists post, "a(==)b(>=)c" = ("a(==)b" ++ "(" ++ ">=" ++ post)%string)
  /\ forall pre alt post : string,
       In alt DefaultFilter.operator_alternatives ->
       "a(==)b(>=)c" = (pre ++ "(" ++ alt ++ post)%string ->
       String.length pre <= String.length "a(==)b".
Proof.
  apply (split_operator_greedy "a(==)b(>=)c"
           (DefaultFilter.mkGroupdict "a(==)b" ">=")).
  - unfold one_line. simpl. intros Hin.
    repeat (destruct Hin as [Hin | Hin]; [discriminate|]). exact Hin.
  - reflexivity.
Defined.

(** ** Further properties of the predicate filter *)

Lemma extended_nil (query : Query) : extended query [] [] = query.
Proof. destruct query. unfold extended. simpl. now rewrite !app_nil_r. Qed.

Lemma extended_extended (query : Query) (a a' : list Expression)
    (k k' : list SortKey) :
  extended (extended query a k) a' k' = extended query (a ++ a') (k ++ k').
Proof. unfold extended. simpl. now rewrite !app_assoc. Qed.

Lemma where_extended (query : Query) (e : Expression) :
  where_ query e = extended query [e] [].
Proof. unfold where_, extended. now rewrite app_nil_r. Qed.

Lemma order_by_extended (query : Query) (k : SortKey) :
  order_by query k = extended query [] [k].
Proof. unfold order_by, extended. now rewrite app_nil_r. Qed.

Lemma method_operator_never_parsed (param_key : string)
    (d : DefaultFilter.groupdict) :
  DefaultFilter.split_operator param_key = Some d ->
  contains (DefaultFilter.operator d) DefaultFilter.SUPPORT_METHOD = false.
Proof.
  intros Hd. apply split_operator_sound in Hd. destruct Hd as [Hin _].
  rewrite operator_alternatives_list in Hin. simpl in Hin.
  repeat (destruct Hin as [<- | Hin]; [reflexivity|]). destruct Hin.
Qed.

Lemma MAP_getitem_compatible (filter_field : FilterField)
    (operator : string) (op : pyoperator) :
  is_support_operator filter_field operator = true ->
  DefaultFilter.MAP_getitem operator = Ok op ->
  compatible (cls filter_field) op = true.
Proof.
  intros Hs. unfold DefaultFilter.MAP_getitem, DefaultFilter.MAP.
  cbn [find fst snd].
  repeat match goal with
         | |- context [String.eqb ?a operator] =>
             destruct (String.eqb_spec a operator) as [Heq | _];
             [ subst operator; cbv iota; intros Hop; injection Hop as <-;
               destruct filter_field as [[] field];
               vm_compute in Hs |- *;
               first [reflexivity | discriminate Hs]
             | ]
         end.
  cbv iota. discriminate.
Qed.

Section PredicateFilterEffects.
Context `{DatetimeLib}.

(** What a turn of the loop can do to the query: nothing, or one call of
    [where] with a comparison built from the parsed key. *)
Lemma filter_param_shape (query query' : Query) (param_key value : string) :
  DefaultFilter.filter_param query (param_key, value) = Ok query' ->
  query' = query
  \/ exists d field op,
       DefaultFilter.split_operator param_key = Some d
       /\ BaseFilter.get_field_py query (DefaultFilter.key d) = Ok field
       /\ In field (selected_columns query)
       /\ is_support_operator (DefaultFilter.get_filter_field field)
            (DefaultFilter.operator d) = true
       /\ DefaultFilter.MAP_getitem (DefaultFilter.operator d) = Ok op
       /\ query' = where_ query
                     (Compare op field
                        (parse_value (DefaultFilter.get_filter_field field)
                                     value)).
Proof.
  unfold DefaultFilter.filter_param.
  destruct (DefaultFilter.split_operator param_key) as [d|] eqn:Hd;
    [|intros Hok; injection Hok as <-; now left].
  destruct (contains (DefaultFilter.key d)
              (BaseFilter.get_valid_field_name_list query)) eqn:Hvalid;
    cbn [negb]; [|intros Hok; injection Hok as <-; now left].
  apply contains_In, get_field_py_found in Hvalid.
  destruct Hvalid as [field [Hget [Hin _]]]. rewrite Hget. cbn [Py.bind].
  destruct (is_support_operator (DefaultFilter.get_filter_field field)
              (DefaultFilter.operator d)) eqn:Hsupported;
    cbn [negb]; [|intros Hok; injection Hok as <-; now left].
  rewrite (method_operator_never_parsed _ _ Hd).
  destruct (DefaultFilter.MAP_getitem (DefaultFilter.operator d))
    as [op|e] eqn:Hop; cbn [Py.bind]; [|discriminate].
  intros Hok. injection Hok as <-. right. exists d, field, op.
  rewrite get_filter_field_wraps. repeat split; assumption || reflexivity.
Qed.

(** The result of a turn of the loop depends on the query through its
    selected columns only, and is the query with at most one recorded
    [where] call more. *)
Lemma filter_param_transport (q q2 : Query) (param : string * string) :
  selected_columns q2 = selected_columns q ->
  match DefaultFilter.filter_param q param with
  | Raise e => DefaultFilter.filter_param q2 param = Raise e
  | Ok q' =>
      exists added,
        q' = extended q added []
        /\ DefaultFilter.filter_param q2 param = Ok (extended q2 added [])
        /\ length added <= 1
  end.
Proof.
  intros Hcols. destruct param as [param_key value].
  unfold DefaultFilter.filter_param.
  rewrite (valid_names_same_columns _ _ Hcols).
  destruct (DefaultFilter.split_operator param_key) as [d|];
    [|exists []; rewrite !extended_nil; auto].
  rewrite (get_field_py_same_columns _ _ (DefaultFilter.key d) Hcols).
  destruct (contains _ (BaseFilter.get_valid_field_name_list q));
    cbn [negb]; [|exists []; rewrite !extended_nil; auto].
  destruct (BaseFilter.get_field_py q (DefaultFilter.key d)) as [field|e];
    cbn [Py.bind]; [|reflexivity].
  destruct (negb (is_support_operator _ _));
    [exists []; rewrite !extended_nil; auto|].
  destruct (contains (DefaultFilter.operator d)
              DefaultFilter.SUPPORT_METHOD).
  - eexists [_]. rewrite !where_extended. auto.
  - destruct (DefaultFilter.MAP_getitem (DefaultFilter.operator d));
      cbn [Py.bind]; [|reflexivity].
    eexists [_]. rewrite !where_extended. auto.
Qed.

Lemma filter_transport (query_params : list (string * string)) :
  forall q q2 : Query,
    selected_columns q2 = selected_columns q ->
    match DefaultFilter.filter q query_params with
    | Raise e => DefaultFilter.filter q2 query_params = Raise e
    | Ok q' =>
        exists added,
          q' = extended q added []
          /\ DefaultFilter.filter q2 query_params
             = Ok (extended q2 added [])
          /\ length added <= length query_params
    end.
Proof.
  induction query_params as [|param rest IH]; intros q q2 Hcols.
  - exists []. rewrite !extended_nil. simpl. auto.
  - rewrite !filter_cons.
    pose proof (filter_param_transport q q2 param Hcols) as Hstep.
    destruct (DefaultFilter.filter_param q param) as [q'|e].
    + destruct Hstep as [added1 [-> [-> Hlen1]]]. cbn [Py.bind].
      specialize (IH (extended q added1 []) (extended q2 added1 [])
                     Hcols).
      destruct (DefaultFilter.filter (extended q added1 []) rest)
        as [q''|e]; [|exact IH].
      destruct IH as [added2 [-> [-> Hlen2]]].
      exists (added1 ++ added2). rewrite !extended_extended. simpl.
      rewrite length_app. repeat split. lia.
    + rewrite Hstep. reflexivity.
Qed.

End PredicateFilterEffects.

Section PredicateFilterProperties.
Context `{DatetimeLib}.

(** X7: the predicate filter is purely additive: when it returns, the
    selected columns and the ordering are as before, the earlier predicates
    are all still there in order, and at most one predicate per pair of the
    mapping has been added after them. *)
Theorem filter_only_adds_predicates (query query' : Query)
    (query_params : list (string * string)) :
  DefaultFilter.filter query query_params = Ok query' ->
  selected_columns query' = selected_columns query
  /\ order_by_calls query' = order_by_calls query
  /\ exists added,
       where_calls query' = where_calls query ++ added
       /\ length added <= length query_params.
Proof.
  intros Hok.
  pose proof (filter_transport query_params query query Logic.eq_refl)
    as Heffect.
  rewrite Hok in Heffect. destruct Heffect as [added [-> [_ Hlen]]].
  unfold extended. simpl. rewrite app_nil_r.
  repeat split. now exists added.
Qed.

(** X9: the filter is not idempotent: applied again with the same mapping
    to its own result, it succeeds again and records the same predicates a
    second time. *)
Theorem filter_twice_duplicates (query query' : Query)
    (query_params : list (string * string)) :
  DefaultFilter.filter query query_params = Ok query' ->
  exists added,
    where_calls query' = where_calls query ++ added
    /\ exists query'',
         DefaultFilter.filter query' query_params = Ok query''
         /\ where_calls query'' = where_calls query ++ added ++ added.
Proof.
  intros Hok.
  pose proof (filter_transport query_params query query Logic.eq_refl)
    as Hsame.
  rewrite Hok in Hsame. destruct Hsame as [added [Hq' _]].
  assert (Hcols : selected_columns query' = selected_columns query)
    by now rewrite Hq'.
  pose proof (filter_transport query_params query query' Hcols) as Hagain.
  rewrite Hok in Hagain. destruct Hagain as [added' [Hq'' [Hrun _]]].
  assert (added' = added) as ->.
  { rewrite Hq' in Hq''. unfold extended in Hq''.
    injection Hq'' as Heq. now apply app_inv_head in Heq. }
  exists added. split; [now rewrite Hq'; simpl|].
  eexists. split; [exact Hrun|].
  rewrite Hq'. simpl. now rewrite <- app_assoc.
Qed.

Lemma filter_param_typed (query query' : Query) (param : string * string) :
  DefaultFilter.filter_param query param = Ok query' ->
  exists added,
    query' = extended query added []
    /\ Forall (typed_comparison (selected_columns query)) added.
Proof.
  destruct param as [param_key value]. intros Hok.
  apply filter_param_shape in Hok.
  destruct Hok as [-> | [d [field [op [_ [_ [Hin [Hs [Hop ->]]]]]]]]].
  - exists []. rewrite extended_nil. split; [reflexivity | constructor].
  - eexists [_]. rewrite where_extended. split; [reflexivity|].
    repeat constructor; [assumption | | now exists value].
    eapply MAP_getitem_compatible; eassumption.
Qed.

Lemma filter_typed (query_params : list (string * string)) :
  forall query query' : Query,
    DefaultFilter.filter query query_params = Ok query' ->
    exists added,
      where_calls query' = where_calls query ++ added
      /\ Forall (typed_comparison (selected_columns query)) added.
Proof.
  induction query_params as [|param rest IH]; intros query query' Hok.
  - injection Hok as <-. exists []. rewrite app_nil_r.
    split; [reflexivity | constructor].
  - rewrite filter_cons in Hok.
    destruct (DefaultFilter.filter_param query param) as [q|e] eqn:Hstep;
      [|discriminate].
    cbn [Py.bind] in Hok. apply filter_param_typed in Hstep.
    destruct Hstep as [added1 [-> Htyped1]].
    apply IH in Hok. destruct Hok as [added2 [Hwhere Htyped2]].
    exists (added1 ++ added2). split.
    + rewrite Hwhere. simpl. now rewrite <- app_assoc.
    + apply Forall_app. split; assumption.
Qed.

(** X10: every predicate the filter adds is a comparison over one of the
    selected columns; it never adds a null check, whatever the mapping. *)
Theorem filter_adds_comparisons_only (query query' : Query)
    (query_params : list (string * string)) :
  DefaultFilter.filter query query_params = Ok query' ->
  exists added,
    where_calls query' = where_calls query ++ added
    /\ Forall (fun e => exists op field v,
                   e = Compare op field v
                   /\ In field (selected_columns query))
              added.
Proof.
  intros Hok. apply filter_typed in Hok.
  destruct Hok as [added [Hwhere Htyped]].
  exists added. split; [assumption|].
  eapply Forall_impl; [|exact Htyped].
  intros [op field v|field b]; simpl; [|tauto].
  intros [Hin _]. now exists op, field, v.
Qed.

(** X11: the comparisons the filter adds respect the column type: on a
    column with the boolean adapter only equality and inequality, with a
    boolean as the value; on a column with the integer or date-time adapter
    never a pattern match. *)
Theorem filter_respects_column_type (query query' : Query)
    (query_params : list (string * string)) :
  DefaultFilter.filter query query_params = Ok query' ->
  exists added,
    where_calls query' = where_calls query ++ added
    /\ Forall
         (fun e =>
            match e with
            | Compare op field v =>
                match cls (DefaultFilter.get_filter_field field) with
                | BooleanAdapter =>
                    (op = eq \/ op = ne) /\ exists b, v = VBool b
                | IntegerAdapter | DateTimeAdapter =>
                    op <> mod_ /\ op <> pow
                | CharAdapter | DefaultAdapter => True
                end
            | IsNull _ _ => False
            end)
         added.
Proof.
  intros Hok. apply filter_typed in Hok.
  destruct Hok as [added [Hwhere Htyped]].
  exists added. split; [assumption|].
  eapply Forall_impl; [|exact Htyped].
  intros [op field v|field b]; simpl; [|tauto].
  intros [_ [Hcompatible [raw Hv]]].
  unfold parse_value in Hv.
  destruct (cls (DefaultFilter.get_filter_field field));
    destruct op; simpl in Hcompatible; try discriminate;
    repeat split; auto; try discriminate;
    subst v; eexists; reflexivity.
Qed.

Lemma MAP_getitem_of_alternative (operator : string) (e : exn) :
  In operator DefaultFilter.operator_alternatives ->
  DefaultFilter.MAP_getitem operator = Raise e ->
  e = KeyError "is_null)".
Proof.
  rewrite operator_alternatives_list. simpl. intros Hin.
  repeat (destruct Hin as [<- | Hin]; [discriminate|]).
  destruct Hin as [<- | []]. intros Hraise. now injection Hraise.
Qed.

Lemma MAP_getitem_raises_is_null (operator : string) (e : exn) :
  In operator DefaultFilter.operator_alternatives ->
  DefaultFilter.MAP_getitem operator = Raise e ->
  operator = "is_null)".
Proof.
  rewrite operator_alternatives_list. simpl. intros Hin.
  repeat (destruct Hin as [<- | Hin]; [discriminate|]).
  destruct Hin as [<- | []]. reflexivity.
Qed.

Lemma filter_param_raises_is_null (query : Query)
    (param_key value : string) (e : exn) :
  DefaultFilter.filter_param query (param_key, value) = Raise e ->
  e = KeyError "is_null)"
  /\ exists pre post, param_key = (pre ++ "(is_null)" ++ post)%string.
Proof.
  unfold DefaultFilter.filter_param.
  destruct (DefaultFilter.split_operator param_key) as [d|] eqn:Hd;
    [|discriminate].
  destruct (contains (DefaultFilter.key d)
              (BaseFilter.get_valid_field_name_list query)) eqn:Hvalid;
    [|discriminate].
  cbn [negb]. apply contains_In, get_field_py_found in Hvalid.
  destruct Hvalid as [field [Hget _]]. rewrite Hget. cbn [Py.bind].
  destruct (negb (is_support_operator _ _)); [discriminate|].
  rewrite (method_operator_never_parsed _ _ Hd).
  destruct (DefaultFilter.MAP_getitem (DefaultFilter.operator d))
    as [op|e'] eqn:Hop; cbn [Py.bind]; [discriminate|].
  intros Hraise. injection Hraise as <-.
  apply split_operator_sound in Hd.
  destruct Hd as [Hin [_ [pre [post Heq]]]].
  pose proof (MAP_getitem_raises_is_null _ _ Hin Hop) as Hnull.
  split; [eapply MAP_getitem_of_alternative; eassumption|].
  exists (pre ++ DefaultFilter.key d)%string, post.
  rewrite Heq, Hnull. now rewrite string_app_assoc.
Qed.

(** X12: whatever the query and the mapping, the only exception the filter
    raises is the KeyError for the operator text made of is_null and a
    closing parenthesis, and it raises it only when some key of the mapping
    holds is_null between parentheses. *)
Theorem filter_raises_only_is_null (query : Query)
    (query_params : list (string * string)) (e : exn) :
  DefaultFilter.filter query query_params = Raise e ->
  e = KeyError "is_null)"
  /\ exists param_key value pre post,
       In (param_key, value) query_params
       /\ param_key = (pre ++ "(is_null)" ++ post)%string.
Proof.
  revert query. induction query_params as [|param rest IH]; intros query.
  - discriminate.
  - rewrite filter_cons.
    destruct (DefaultFilter.filter_param query param) as [q|e'] eqn:Hstep;
      cbn [Py.bind].
    + intros Hraise. apply IH in Hraise.
      destruct Hraise as [He [k [v [pre [post [Hin Hk]]]]]].
      split; [assumption|]. exists k, v, pre, post.
      split; [now right | assumption].
    + intros Hraise. injection Hraise as <-.
      destruct param as [param_key value].
      apply filter_param_raises_is_null in Hstep.
      destruct Hstep as [He [pre [post Hk]]].
      split; [assumption|]. exists param_key, value, pre, post.
      split; [now left | assumption].
Qed.

Lemma get_field_py_in_names (query : Query) (field_name : string)
    (field : Field) :
  BaseFilter.get_field_py query field_name = Ok field ->
  In field (selected_columns query) /\ name field = field_name.
Proof.
  unfold BaseFilter.get_field_py.
  destruct (find _ (selected_columns query)) as [g|] eqn:Hfind;
    [|discriminate].
  intros Hok. injection Hok as <-. apply find_some in Hfind.
  destruct Hfind as [Hg Heq]. apply String.eqb_eq in Heq. auto.
Qed.

(** X13: a pair whose key is a selected one-line field name followed by a
    comparison token in parentheses, the token being supported by the
    adapter of the column, adds exactly the comparison of that column with
    the value coerced by the adapter, and raises nothing. *)
Theorem comparison_pair_adds_predicate (query : Query)
    (f operator value : string) (op : pyoperator) (field : Field) :
  one_line f ->
  BaseFilter.get_field_py query f = Ok field ->
  In (operator, op) DefaultFilter.MAP ->
  is_support_operator (DefaultFilter.get_filter_field field) operator
  = true ->
  DefaultFilter.filter_param query
    ((f ++ "(" ++ operator ++ ")")%string, value)
  = Ok (where_ query
          (Compare op field
             (parse_value (DefaultFilter.get_filter_field field) value))).
Proof.
  intros Hline Hget Hmap Hsupported. unfold DefaultFilter.filter_param.
  rewrite (split_operator_of_comparison f operator Hline
             (in_map fst _ _ Hmap)).
  cbn [DefaultFilter.key DefaultFilter.operator].
  pose proof (get_field_py_in_names _ _ _ Hget) as [Hin Hname].
  assert (Hvalid : contains f (BaseFilter.get_valid_field_name_list query)
                   = true).
  { apply contains_In. unfold BaseFilter.get_valid_field_name_list.
    rewrite <- Hname. now apply in_map. }
  rewrite Hvalid. cbn [negb]. rewrite Hget. cbn [Py.bind].
  rewrite Hsupported. cbn [negb]. rewrite get_filter_field_wraps.
  simpl in Hmap.
  repeat (destruct Hmap as [Hmap | Hmap];
          [injection Hmap as <- <-; reflexivity|]).
  destruct Hmap.
Qed.

End PredicateFilterProperties.

Lemma filter_only_adds_predicates_witness :
  selected_columns
    (where_ Sample.users (Compare eq Sample.name_field (VStr "Alice")))
  = selected_columns Sample.users
  /\ order_by_calls
       (where_ Sample.users (Compare eq Sample.name_field (VStr "Alice")))
     = order_by_calls Sample.users
  /\ exists added,
       where_calls
         (where_ Sample.users (Compare eq Sample.name_field (VStr "Alice")))
       = where_calls Sample.users ++ added
       /\ length added <= 2.
Proof.
  apply (@filter_only_adds_predicates Sample.lib Sample.users
           (where_ Sample.users (Compare eq Sample.name_field (VStr "Alice")))
           [("name(==)", "Alice"); ("bogus", "x")]).
  reflexivity.
Defined.

Lemma filter_twice_duplicates_witness :
  exists added,
    where_calls
      (where_ Sample.users (Compare gt Sample.id_field (VStr "3")))
    = where_calls Sample.users ++ added
    /\ exists query'',
         @DefaultFilter.filter Sample.lib
           (where_ Sample.users (Compare gt Sample.id_field (VStr "3")))
           [("id(>)", "3")]
         = Ok query''
         /\ where_calls query'' = where_calls Sample.users ++ added ++ added.
Proof.
  apply (@filter_twice_duplicates Sample.lib Sample.users
           (where_ Sample.users (Compare gt Sample.id_field (VStr "3")))
           [("id(>)", "3")]).
  reflexivity.
Defined.

Lemma filter_adds_comparisons_only_witness :
  exists added,
    where_calls
      (where_ Sample.users (Compare ne Sample.active_field (VBool true)))
    = where_calls Sample.users ++ added
    /\ Forall (fun e => exists op field v,
                   e = Compare op field v
                   /\ In field (selected_columns Sample.users))
              added.
Proof.
  apply (@filter_adds_comparisons_only Sample.lib Sample.users
           (where_ Sample.users (Compare ne Sample.active_field (VBool true)))
           [("active(!=)", "true"); ("active(>)", "true")]).
  reflexivity.
Defined.

Lemma filter_respects_column_type_witness :
  exists added,
    where_calls
      (where_ Sample.users (Compare ne Sample.active_field (VBool true)))
    = where_calls Sample.users ++ added
    /\ Forall
         (fun e =>
            match e with
            | Compare op field v =>
                match cls (DefaultFilter.get_filter_field field) with
                | BooleanAdapter =>
                    (op = eq \/ op = ne) /\ exists b, v = VBool b
                | IntegerAdapter | DateTimeAdapter =>
                    op <> mod_ /\ op <> pow
                | CharAdapter | DefaultAdapter => True
                end
            | IsNull _ _ => False
            end)
         added.
Proof.
  apply (@filter_respects_column_type Sample.lib Sample.users
           (where_ Sample.users (Compare ne Sample.active_field (VBool true)))
           [("active(!=)", "true"); ("active(LIKE)", "t%")]).
  reflexivity.
Defined.

Lemma filter_raises_only_is_null_witness :
  KeyError "is_null)" = KeyError "is_null)"
  /\ exists param_key value pre post,
       In (param_key, value)
          [("name(==)", "Alice"); ("active(is_null)", "false")]
       /\ param_key = (pre ++ "(is_null)" ++ post)%string.
Proof.
  apply (@filter_raises_only_is_null Sample.lib Sample.users
           [("name(==)", "Alice"); ("active(is_null)", "false")]
           (KeyError "is_null)")).
  reflexivity.
Defined.

Lemma comparison_pair_adds_predicate_witness :
  @DefaultFilter.filter_param Sample.lib Sample.users
    ("created(>=)", "2024-01-02T03:04:05")
  = Ok (where_ Sample.users
          (Compare ge Sample.created_field
             (VDatetime (mkDatetime 2024 1 2 3 4 5)))).
Proof.
  apply (@comparison_pair_adds_predicate Sample.lib Sample.users
           "created" ">=" "2024-01-02T03:04:05" ge Sample.created_field).
  - unfold one_line. simpl. intros Hin.
    repeat (destruct Hin as [Hin | Hin]; [discriminate|]). exact Hin.
  - reflexivity.
  - simpl. tauto.
  - reflexivity.
Defined.

(** ** Further properties of the ordering filter *)

Lemma order_by_field_name_transport (q q2 : Query) (field_name : string)
    (k : SortKey) :
  selected_columns q2 = selected_columns q ->
  OrderingFilter.order_by_field_name q field_name = Ok (order_by q k) ->
  OrderingFilter.order_by_field_name q2 field_name = Ok (order_by q2 k).
Proof.
  intros Hcols. unfold OrderingFilter.order_by_field_name.
  rewrite !(fun n => get_field_py_same_columns q q2 n Hcols).
  destruct (startswith "-" field_name);
    match goal with
    | |- context [BaseFilter.get_field_py q ?n] =>
        destruct (BaseFilter.get_field_py q n) as [field|e]
    end; cbn [Py.bind]; try discriminate;
    intros Hok; injection Hok as Hk; apply app_inv_head in Hk;
    injection Hk as <-; reflexivity.
Qed.

Lemma for_each_transport (field_names : list string) :
  forall q q2 : Query,
    selected_columns q2 = selected_columns q ->
    Forall (fun t => OrderingFilter.term_valid
                       (BaseFilter.get_valid_field_name_list q) t = true)
           field_names ->
    exists keys,
      OrderingFilter.for_each q field_names = Ok (extended q [] keys)
      /\ OrderingFilter.for_each q2 field_names = Ok (extended q2 [] keys)
      /\ Forall2 (ordering_term q) field_names keys.
Proof.
  induction field_names as [|t ts IH]; intros q q2 Hcols Hvalid.
  - exists []. rewrite !extended_nil. repeat split; constructor.
  - inversion Hvalid as [|? ? Ht Hts]; subst.
    destruct (order_by_field_name_valid _ _ Ht) as [k [Hterm Hstep]].
    pose proof (order_by_field_name_transport q q2 t k Hcols Hstep)
      as Hstep2.
    destruct (IH (order_by q k) (order_by q2 k) Hcols Hts)
      as [keys [Hq [Hq2 Hterms]]].
    exists (k :: keys). simpl. rewrite Hstep, Hstep2. cbn [Py.bind].
    rewrite Hq, Hq2, !order_by_extended, !extended_extended.
    repeat split. constructor; [assumption|].
    eapply Forall2_impl; [|exact Hterms].
    intros a b. apply ordering_term_same_columns. reflexivity.
Qed.

(** The result of the ordering filter depends on the query through its
    selected columns only, and is the query with further recorded
    [order_by] calls. *)
Lemma ordering_transport (q q2 : Query) (ordering_param : option string) :
  selected_columns q2 = selected_columns q ->
  exists keys,
    OrderingFilter.filter q ordering_param = Ok (extended q [] keys)
    /\ OrderingFilter.filter q2 ordering_param = Ok (extended q2 [] keys).
Proof.
  intros Hcols. destruct ordering_param as [ordering_param|].
  - unfold OrderingFilter.filter.
    assert (Hsame : OrderingFilter.field_name_list q2 ordering_param
                    = OrderingFilter.field_name_list q ordering_param).
    { unfold OrderingFilter.field_name_list,
        OrderingFilter.filter_valid_fields.
      now rewrite (valid_names_same_columns _ _ Hcols). }
    rewrite Hsame.
    pose proof (field_name_list_valid q ordering_param) as Hvalid.
    destruct (OrderingFilter.field_name_list q ordering_param) as [|t ts].
    + exists []. now rewrite !extended_nil.
    + apply Forall_rev in Hvalid.
      destruct (for_each_transport _ q q2 Hcols Hvalid)
        as [keys [Hq [Hq2 _]]].
      exists keys. split; assumption.
  - unfold OrderingFilter.filter, OrderingFilter.get_default_ordering_field.
    rewrite Hcols. eexists [_]. rewrite !order_by_extended.
    split; reflexivity.
Qed.

(** X14: the two filters commute: ordering first and then filtering gives
    the same outcome, the same query or the same exception, as filtering
    first and then ordering. *)
Theorem filters_commute `{DatetimeLib} (query : Query)
    (ordering_param : option string)
    (query_params : list (string * string)) :
  (ordered <- OrderingFilter.filter query ordering_param ;;
   DefaultFilter.filter ordered query_params)
  = (filtered <- DefaultFilter.filter query query_params ;;
     OrderingFilter.filter filtered ordering_param).
Proof.
  destruct (DefaultFilter.filter query query_params) as [q'|e] eqn:Hf.
  - pose proof (filter_transport query_params query query Logic.eq_refl)
      as Hself.
    rewrite Hf in Hself. destruct Hself as [added [Hq' _]].
    assert (Hcols : selected_columns q' = selected_columns query)
      by now rewrite Hq'.
    destruct (ordering_transport query q' ordering_param Hcols)
      as [keys [Ho Ho']].
    rewrite Ho. cbn [Py.bind]. rewrite Ho'.
    pose proof (filter_transport query_params query
                  (extended query [] keys) Logic.eq_refl) as Hmove.
    rewrite Hf in Hmove. destruct Hmove as [added' [Hq'' [Hrun _]]].
    rewrite Hrun, Hq''. now rewrite !extended_extended, !app_nil_r.
  - destruct (ordering_transport query query ordering_param Logic.eq_refl)
      as [keys [Ho _]].
    rewrite Ho. cbn [Py.bind].
    pose proof (filter_transport query_params query
                  (extended query [] keys) Logic.eq_refl) as Hmove.
    rewrite Hf in Hmove. exact Hmove.
Qed.

(** X15: when a selected column is the primary key of its model, an absent
    parameter orders by the first such column, ascending, in one call, and
    leaves the predicates alone. *)
Theorem ordering_default_first_primary_key (query : Query)
    (before after : list Field) (pk : Field) :
  selected_columns query = before ++ pk :: after ->
  Forall (fun field => primary_key_name field <> name field) before ->
  primary_key_name pk = name pk ->
  OrderingFilter.filter query None = Ok (order_by query (Asc pk)).
Proof.
  intros Hcols Hbefore Hpk.
  apply (ordering_default_primary_key query pk).
  unfold OrderingFilter.get_default_ordering_field. rewrite Hcols.
  clear Hcols. induction Hbefore as [|other before Hother _ IH]; simpl.
  - now rewrite Hpk, String.eqb_refl.
  - apply String.eqb_neq in Hother. rewrite Hother. exact IH.
Qed.

Lemma ordering_default_first_primary_key_witness :
  OrderingFilter.filter
    (mkQuery [Sample.name_field; Sample.id_field; Sample.active_field] [] [])
    None
  = Ok (order_by
          (mkQuery [Sample.name_field; Sample.id_field; Sample.active_field]
                   [] [])
          (Asc Sample.id_field)).
Proof.
  apply (ordering_default_first_primary_key
           (mkQuery [Sample.name_field; Sample.id_field;
                     Sample.active_field] [] [])
           [Sample.name_field] [Sample.active_field] Sample.id_field).
  - reflexivity.
  - repeat constructor. discriminate.
  - reflexivity.
Defined.

Lemma ordering_term_column (query : Query) (token : string) (k : SortKey) :
  ordering_term query token k ->
  exists field,
    In field (selected_columns query) /\ (k = Asc field \/ k = Desc field).
Proof.
  unfold ordering_term.
  destruct (startswith "-" token); intros [field [Hget ->]];
    apply get_field_py_in_names in Hget; destruct Hget as [Hin _];
    exists field; auto.
Qed.

(** X16: for a parameter that is given, the ordering filter never fails
    and only adds sort keys: the selected columns and the predicates stay as
    they were and the earlier order_by calls are kept; at most one call is
    added per comma-separated token, each for a selected column. *)
Theorem ordering_only_adds_sort_keys (query : Query) (p : string) :
  exists keys,
    OrderingFilter.filter query (Some p) = Ok (extended query [] keys)
    /\ length keys <= length (split "," p)
    /\ Forall (fun k => exists field,
                   In field (selected_columns query)
                   /\ (k = Asc field \/ k = Desc field))
              keys.
Proof.
  unfold OrderingFilter.filter.
  pose proof (field_name_list_valid query p) as Hvalid.
  assert (Hlen : length (OrderingFilter.field_name_list query p)
                 <= length (split "," p)).
  { unfold OrderingFilter.field_name_list,
      OrderingFilter.filter_valid_fields.
    destruct (truthy p).
    - rewrite <- (length_map strip (split "," p)). apply filter_length_le.
    - simpl. lia. }
  destruct (OrderingFilter.field_name_list query p) as [|t ts] eqn:Htokens.
  - exists []. rewrite extended_nil. simpl.
    repeat split; [lia | constructor].
  - apply Forall_rev in Hvalid.
    destruct (for_each_transport _ query query Logic.eq_refl Hvalid)
      as [keys [Hq [_ Hterms]]].
    exists keys. split; [exact Hq|]. split.
    + apply Forall2_length in Hterms. rewrite length_rev in Hterms. lia.
    + clear Hq. revert Hterms. generalize (rev (t :: ts)).
      intros tokens Hterms.
      induction Hterms as [|a k tokens keys Hak _ IH]; constructor.
      * eapply ordering_term_column; exact Hak.
      * exact IH.
Qed.

Lemma ordering_blank_parameter_witness :
  OrderingFilter.filter Sample.users (Some "   ") = Ok Sample.users.
Proof.
  apply (ordering_blank_parameter Sample.users "   ").
  - reflexivity.
  - simpl. intros Hin.
    repeat (destruct Hin as [Hin | Hin]; [discriminate|]). exact Hin.
Defined.

(** ** Keys without a closing parenthesis *)

Lemma split_operator_of_unclosed (f operator : string) :
  one_line f ->
  In operator (map fst DefaultFilter.MAP) ->
  DefaultFilter.split_operator (f ++ "(" ++ operator)
  = Some (DefaultFilter.mkGroupdict f operator).
Proof.
  intros Hline Hop. apply search_of_match_at, match_at_prepend;
    [assumption|].
  simpl in Hop.
  repeat (destruct Hop as [<- | Hop]; [reflexivity|]). destruct Hop.
Qed.

(** C5: a key made of a selected field name, an opening parenthesis and a
    comparison token the adapter supports, with no closing parenthesis
    anywhere in it, is not passed over: the filter adds the comparison of
    the column with the coerced value for it. *)
Theorem unclosed_key_adds_predicate `{DatetimeLib} (query : Query)
    (f operator value : string) (op : pyoperator) (field : Field) :
  one_line f ->
  ~ In ")"%char (list_ascii_of_string f) ->
  BaseFilter.get_field_py query f = Ok field ->
  In (operator, op) DefaultFilter.MAP ->
  is_support_operator (DefaultFilter.get_filter_field field) operator
  = true ->
  ~ In ")"%char (list_ascii_of_string (f ++ "(" ++ operator))
  /\ DefaultFilter.filter_param query
       ((f ++ "(" ++ operator)%string, value)
     = Ok (where_ query
             (Compare op field
                (parse_value (DefaultFilter.get_filter_field field) value))).
Proof.
  intros Hline Hparen Hget Hmap Hsupported. split.
  - rewrite list_ascii_of_string_app, in_app_iff. intros [Hin | Hin];
      [now apply Hparen|].
    simpl in Hmap, Hin.
    repeat (destruct Hmap as [Hmap | Hmap];
            [injection Hmap as <- <-; simpl in Hin;
             repeat (destruct Hin as [Hin | Hin]; [discriminate|]);
             exact Hin|]).
    destruct Hmap.
  - unfold DefaultFilter.filter_param.
    rewrite (split_operator_of_unclosed f operator Hline
               (in_map fst _ _ Hmap)).
    cbn [DefaultFilter.key DefaultFilter.operator].
    pose proof (get_field_py_in_names _ _ _ Hget) as [Hin Hname].
    assert (Hvalid : contains f (BaseFilter.get_valid_field_name_list query)
                     = true).
    { apply contains_In. unfold BaseFilter.get_valid_field_name_list.
      rewrite <- Hname. now apply in_map. }
    rewrite Hvalid. cbn [negb]. rewrite Hget. cbn [Py.bind].
    rewrite Hsupported. cbn [negb]. rewrite get_filter_field_wraps.
    simpl in Hmap.
    repeat (destruct Hmap as [Hmap | Hmap];
            [injection Hmap as <- <-; reflexivity|]).
    destruct Hmap.
Qed.

Lemma unclosed_key_adds_predicate_witness :
  ~ In ")"%char (list_ascii_of_string "name(==")
  /\ @DefaultFilter.filter_param Sample.lib Sample.users ("name(==", "x")
     = Ok (where_ Sample.users (Compare eq Sample.name_field (VStr "x"))).
Proof.
  apply (@unclosed_key_adds_predicate Sample.lib Sample.users
           "name" "==" "x" eq Sample.name_field).
  - unfold one_line. simpl. intros Hin.
    repeat (destruct Hin as [Hin | Hin]; [discriminate|]). exact Hin.
  - simpl. intros Hin.
    repeat (destruct Hin as [Hin | Hin]; [discriminate|]). exact Hin.
  - reflexivity.
  - simpl. tauto.
  - reflexivity.
Defined.
